(** * YAVS: a shallow embedding of [yavs.py] and its demonstration driver

  The store is one binary file: a 36-byte header (magic, version, record
  count, dimension, reserved bytes) followed by appended records.  The
  three operations of [yavs.py] — [create], [get_header_info] and
  [insert] — are embedded as computations over a file system that maps
  paths to byte contents, with Python's exceptions as an explicit result. *)

From Stdlib Require Import ZArith List Strings.String Strings.Ascii Strings.Byte.
From Stdlib Require Import Numbers.DecimalString Lia.
From Corelib Require Import Floats.SpecFloat.
From stdpp Require Import gmap strings list.

Local Open Scope Z_scope.

(** ** Bytes and [struct]-style integer packing *)

Module Bytes.

#[export] Instance byte_eq_dec : EqDecision byte := Byte.byte_eq_dec.

Definition byte_of_Z (z : Z) : byte :=
  match Byte.of_N (Z.to_N (z mod 256)) with
  | Some b => b
  | None => x00
  end.

Definition Z_of_byte (b : byte) : Z := Z.of_N (Byte.to_N b).

(** [int.to_bytes(n, "little")] on a value already known to fit. *)
Fixpoint le_bytes (n : nat) (v : Z) : list byte :=
  match n with
  | O => []
  | S n' => byte_of_Z v :: le_bytes n' (v / 256)
  end.

(** [int.from_bytes(bs, "little")]. *)
Fixpoint le_value (bs : list byte) : Z :=
  match bs with
  | [] => 0
  | b :: r => Z_of_byte b + 256 * le_value r
  end.

(** [int.to_bytes(n, "big")]. *)
Definition be_bytes (n : nat) (v : Z) : list byte := rev (le_bytes n v).

(** [struct.pack("<I", v)] / [struct.pack("<Q", v)]: an integer outside
    the field's unsigned range raises [struct.error]. *)
Definition pack_uint (n : nat) (v : Z) : option (list byte) :=
  if (0 <=? v) && (v <? 256 ^ Z.of_nat n) then Some (le_bytes n v) else None.

(** [struct.unpack("<I", bs)[0]]: a buffer of the wrong size raises
    [struct.error]. *)
Definition unpack_uint (n : nat) (bs : list byte) : option Z :=
  if Nat.eqb (length bs) n then Some (le_value bs) else None.

(** [bytes(n)]: [n] zero bytes. *)
Definition zeros (n : nat) : list byte := replicate n x00.

End Bytes.
Import Bytes.

(** ** Values supplied by the Python runtime *)

Module Py.

(** Exceptions that can leave the three operations and the driver. *)
Inductive exn : Type :=
| FileNotFoundError
| ValueError (msg : string)
| struct_error
| OverflowError
| UnicodeEncodeError
| TypeError
| AttributeError (name : string).

Inductive result (A : Type) : Type :=
| Ok (a : A)
| Raise (e : exn).
Arguments Ok {A} a.
Arguments Raise {A} e.

(** A Python [int] is an unbounded integer; [len] returns one. *)
Definition len {A} (l : list A) : Z := Z.of_nat (length l).

(** [f"{n}"] for an [int]: its decimal digits. *)
Definition fmt (z : Z) : string := NilZero.string_of_int (Z.to_int z).

(** A Python [str] is a sequence of code points (0 .. 0x10FFFF). *)
Definition str := list Z.

(** The code points of an ASCII literal. *)
Definition str_of (s : string) : str :=
  map (fun a => Z.of_N (N_of_ascii a)) (list_ascii_of_string s).

(** [chr(cp).encode("utf-8")]: lone surrogates cannot be encoded. *)
Definition utf8_char (cp : Z) : result (list byte) :=
  if cp <? 0x80 then Ok [byte_of_Z cp]
  else if cp <? 0x800 then
    Ok [byte_of_Z (Z.lor 0xC0 (Z.shiftr cp 6));
        byte_of_Z (Z.lor 0x80 (Z.land cp 0x3F))]
  else if cp <? 0x10000 then
    if (0xD800 <=? cp) && (cp <=? 0xDFFF) then Raise UnicodeEncodeError
    else
      Ok [byte_of_Z (Z.lor 0xE0 (Z.shiftr cp 12));
          byte_of_Z (Z.lor 0x80 (Z.land (Z.shiftr cp 6) 0x3F));
          byte_of_Z (Z.lor 0x80 (Z.land cp 0x3F))]
  else
    Ok [byte_of_Z (Z.lor 0xF0 (Z.shiftr cp 18));
        byte_of_Z (Z.lor 0x80 (Z.land (Z.shiftr cp 12) 0x3F));
        byte_of_Z (Z.lor 0x80 (Z.land (Z.shiftr cp 6) 0x3F));
        byte_of_Z (Z.lor 0x80 (Z.land cp 0x3F))].

(** [s.encode("utf-8")]. *)
Fixpoint utf8_encode (s : str) : result (list byte) :=
  match s with
  | [] => Ok []
  | cp :: r =>
      match utf8_char cp with
      | Raise e => Raise e
      | Ok bs =>
          match utf8_encode r with
          | Raise e => Raise e
          | Ok rest => Ok (bs ++ rest)
          end
      end
  end.

(** A Python [float] is an IEEE-754 binary64 value. *)
Definition float := spec_float.

(** Conversion to binary32, round to nearest even (the C cast
    [(float)x]); a finite value too large becomes an infinity. *)
Definition to_binary32 (x : float) : spec_float :=
  match x with
  | S754_finite s m e => binary_round 24 128 s m e
  | _ => x
  end.

Definition sign_bit (s : bool) : Z := if s then 0x80000000 else 0.

(** The 32-bit pattern of a binary32 value (NaN as the quiet NaN). *)
Definition binary32_bits (x : spec_float) : Z :=
  match x with
  | S754_zero s => sign_bit s
  | S754_infinity s => sign_bit s + 0x7F800000
  | S754_nan => 0x7FC00000
  | S754_finite s m e =>
      if Z.pos m <? 2 ^ 23 then sign_bit s + Z.pos m
      else sign_bit s + (e + 150) * 2 ^ 23 + (Z.pos m - 2 ^ 23)
  end.

(** [struct.pack("<f", x)]: [OverflowError] when a finite [x] does not
    fit binary32. *)
Definition pack_float (x : float) : result (list byte) :=
  match x, to_binary32 x with
  | S754_finite _ _ _, S754_infinity _ => Raise OverflowError
  | _, y => Ok (le_bytes 4 (binary32_bits y))
  end.

(** [struct.pack("<" + "f" * dim, *embedding)] when [dim] is the number
    of values: the values packed one after the other. *)
Fixpoint pack_floats (xs : list float) : result (list byte) :=
  match xs with
  | [] => Ok []
  | x :: r =>
      match pack_float x with
      | Raise e => Raise e
      | Ok bs =>
          match pack_floats r with
          | Raise e => Raise e
          | Ok rest => Ok (bs ++ rest)
          end
      end
  end.

(** [uuid.uuid4().bytes], as a function of the 128 random bits drawn
    from the operating system: the variant and version bits are set and
    the integer is written big-endian on 16 bytes. *)
Definition uuid4_int (r : Z) : Z :=
  let i := r mod 2 ^ 128 in
  let i := Z.land i (Z.lnot (Z.shiftl 0xC000 48)) in
  let i := Z.lor i (Z.shiftl 0x8000 48) in
  let i := Z.land i (Z.lnot (Z.shiftl 0xF000 64)) in
  Z.lor i (Z.shiftl 4 76).

Definition uuid4_bytes (r : Z) : list byte := be_bytes 16 (uuid4_int r).

End Py.
Import Py.

(** ** Files: a file system of byte contents, and computations over it *)

Module IO.

(** The state every operation acts on: path to file content. *)
Abbreviation FS := (gmap string (list byte)).

(** A computation may change the file system and then return or raise;
    the changes made before an exception stay (a [with] block closes,
    and so flushes, its file on the way out). *)
Definition io (A : Type) : Type := FS -> result A * FS.

Definition ret {A} (a : A) : io A := fun fs => (Ok a, fs).

Definition raise {A} (e : exn) : io A := fun fs => (Raise e, fs).

Definition bind {A B} (m : io A) (k : A -> io B) : io B :=
  fun fs =>
    match m fs with
    | (Ok a, fs') => k a fs'
    | (Raise e, fs') => (Raise e, fs')
    end.

Definition lift {A} (r : result A) : io A := fun fs => (r, fs).

(** [open(path, "wb")]: the file is created or truncated. *)
Definition open_wb (path : string) : io unit :=
  fun fs => (Ok tt, <[path := []]> fs).

(** [open(path, "ab")]: the file is created when missing. *)
Definition open_ab (path : string) : io unit :=
  fun fs =>
    match fs !! path with
    | Some _ => (Ok tt, fs)
    | None => (Ok tt, <[path := []]> fs)
    end.

(** [open(path, "rb")] and [open(path, "r+b")]: the file must exist.
    The first hands out the content to read from. *)
Definition open_rb (path : string) : io (list byte) :=
  fun fs =>
    match fs !! path with
    | Some c => (Ok c, fs)
    | None => (Raise FileNotFoundError, fs)
    end.

Definition open_rwb (path : string) : io unit :=
  fun fs =>
    match fs !! path with
    | Some _ => (Ok tt, fs)
    | None => (Raise FileNotFoundError, fs)
    end.

(** [f.write(bs)] on a file opened "wb" (written front to back) or "ab":
    the bytes go to the end of the file. *)
Definition write_end (path : string) (bs : list byte) : io unit :=
  fun fs => (Ok tt, <[path := default [] (fs !! path) ++ bs]> fs).

(** Content after [f.seek(pos); f.write(bs)] on a file opened "r+b":
    the bytes at [pos ..] are overwritten, the file grows when they reach
    past its end, a gap before [pos] reads as zeros. *)
Definition overwrite (c : list byte) (pos : nat) (bs : list byte) : list byte :=
  take pos c ++ zeros (pos - length c) ++ bs ++ drop (pos + length bs) c.

Definition write_at (path : string) (pos : nat) (bs : list byte) : io unit :=
  fun fs => (Ok tt, <[path := overwrite (default [] (fs !! path)) pos bs]> fs).

(** [f.read(n)] on the bytes not yet read: what was read, what remains. *)
Definition read (n : nat) (f : list byte) : list byte * list byte :=
  (take n f, drop n f).

(** [struct.pack] and [struct.unpack] of one unsigned field. *)
Definition struct_pack (n : nat) (v : Z) : result (list byte) :=
  match pack_uint n v with
  | Some bs => Ok bs
  | None => Raise struct_error
  end.

Definition struct_unpack (n : nat) (bs : list byte) : result Z :=
  match unpack_uint n bs with
  | Some v => Ok v
  | None => Raise struct_error
  end.

End IO.
Import IO.

Declare Scope io_scope.
Delimit Scope io_scope with io.
Notation "x <- m ;; k" := (bind m (fun x => k))
  (at level 100, m at next level, right associativity) : io_scope.
Notation "m ;;; k" := (bind m (fun _ => k))
  (at level 100, right associativity) : io_scope.
Local Open Scope io_scope.

(** ** [yavs.py] *)

Module Yavs.

Definition MAGIC : list byte := [x59; x41; x56; x53].   (* b"YAVS" *)
Definition VERSION : Z := 1.
Definition RESERVED_SIZE : nat := 16.
Definition HEADER_SIZE : nat := 4 + 4 + 8 + 4 + RESERVED_SIZE.

Definition create (filename : string) (dim : Z) : io unit :=
  open_wb filename ;;;
  write_end filename MAGIC ;;;
  v <- lift (struct_pack 4 VERSION) ;;
  write_end filename v ;;;
  n <- lift (struct_pack 8 0) ;;
  write_end filename n ;;;
  d <- lift (struct_pack 4 dim) ;;
  write_end filename d ;;;
  write_end filename (zeros RESERVED_SIZE).

Definition bad_magic_msg : string := "Not a valid YAVS file.".

Definition version_msg (version : Z) : string :=
  "File version mismatch. Expected " ++ fmt VERSION ++ ", got " ++ fmt version ++ ".".

(** The body of [get_header_info]'s [with] block, on the opened file. *)
Definition read_header (f : list byte) : result (Z * Z) :=
  let '(magic, f) := read 4 f in
  if bool_decide (magic <> MAGIC) then Raise (ValueError bad_magic_msg)
  else
    let '(vb, f) := read 4 f in
    match struct_unpack 4 vb with
    | Raise e => Raise e
    | Ok version =>
        if bool_decide (version <> VERSION) then Raise (ValueError (version_msg version))
        else
          let '(nb, f) := read 8 f in
          match struct_unpack 8 nb with
          | Raise e => Raise e
          | Ok n_records =>
              let '(db, f) := read 4 f in
              match struct_unpack 4 db with
              | Raise e => Raise e
              | Ok dim => Ok (n_records, dim)
              end
          end
    end.

Definition get_header_info (filename : string) : io (Z * Z) :=
  f <- open_rb filename ;;
  lift (read_header f).

(** The [metadata] argument: declared [bytes], and also called with a
    [str]. *)
Inductive metadata : Type :=
| MetaBytes (b : list byte)
| MetaStr (s : str).

Definition meta_len (m : metadata) : Z :=
  match m with
  | MetaBytes b => len b
  | MetaStr s => len s
  end.

(** [try: f.write(metadata) except TypeError: f.write(metadata.encode("utf-8"))]:
    a binary file takes [bytes]; for a [str] it raises [TypeError] before
    writing anything. *)
Definition write_metadata (filename : string) (m : metadata) : io unit :=
  match m with
  | MetaBytes b => write_end filename b
  | MetaStr s =>
      e <- lift (utf8_encode s) ;;
      write_end filename e
  end.

Definition dim_msg (dim given : Z) : string :=
  "Embedding dimension mismatch. Expected " ++ fmt dim ++ ", got " ++ fmt given.

Definition id_msg : string := "Record ID must be 16 bytes.".

(** [insert]; [rnd] is the randomness [uuid.uuid4()] draws when
    [record_id] is [None]. *)
Definition insert (filename : string) (embedding : list float)
    (meta : metadata) (record_id : option (list byte)) (rnd : Z) : io unit :=
  header <- get_header_info filename ;;
  let '(n_records, dim) := header in
  if bool_decide (len embedding <> dim) then
    raise (ValueError (dim_msg dim (len embedding)))
  else
    let record_id :=
      match record_id with
      | None => uuid4_bytes rnd
      | Some r => r
      end in
    if bool_decide (len record_id <> 16) then raise (ValueError id_msg)
    else
      embedding_bytes <- lift (pack_floats embedding) ;;
      let meta_len := meta_len meta in
      open_ab filename ;;;
      write_end filename record_id ;;;
      write_end filename embedding_bytes ;;;
      ml <- lift (struct_pack 4 meta_len) ;;
      write_end filename ml ;;;
      write_metadata filename meta ;;;
      open_rwb filename ;;;
      cnt <- lift (struct_pack 8 (n_records + 1)) ;;
      write_at filename (4 + 4) cnt.

End Yavs.
Import Yavs.

(** ** [example.py] *)

Module Example.

(** What the name [yavs.<name>] is bound to after [import yavs]: the names
    [yavs.py] binds at module level. *)
Inductive attr : Type :=
| AttrCreate
| AttrGetHeaderInfo
| AttrInsert
| AttrData.

Definition yavs_getattr (name : string) : result attr :=
  if bool_decide (name = "create"%string) then Ok AttrCreate
  else if bool_decide (name = "get_header_info"%string) then Ok AttrGetHeaderInfo
  else if bool_decide (name = "insert"%string) then Ok AttrInsert
  else if bool_decide (name ∈ ["struct"; "uuid"; "MAGIC"; "VERSION";
                               "RESERVED_SIZE"; "HEADER_SIZE"]%string)
       then Ok AttrData
  else Raise (AttributeError name).

(** A call [yavs.<name>(fname, embedding, text)] with three positional
    arguments: only [insert] takes three; the attribute is looked up
    before anything is called. *)
Definition yavs_call3 (name : string) (fname : string) (embedding : list float)
    (text : str) (rnd : Z) : io unit :=
  f <- lift (yavs_getattr name) ;;
  match f with
  | AttrInsert => insert fname embedding (MetaStr text) None rnd
  | AttrCreate | AttrGetHeaderInfo | AttrData => raise TypeError
  end.

(** [os.path.exists(fname)]. *)
Definition path_exists (fname : string) : io bool :=
  fun fs => (Ok (bool_decide (is_Some (fs !! fname))), fs).

Definition fname : string := "db.yavs".
Definition dimension : Z := 384.
Definition text1 : str := str_of "My first record".
Definition text2 : str := str_of "Another piece of data".

(** The script, top to bottom.  [encode] is the embedding model
    ([model.encode]), [rnd1] and [rnd2] the randomness available to the
    two calls. *)
Definition main (encode : str -> list float) (rnd1 rnd2 : Z) : io unit :=
  e <- path_exists fname ;;
  (if negb e then create fname dimension else ret tt) ;;;
  let text := text1 in
  let embedding := encode text in
  yavs_call3 "append" fname embedding text rnd1 ;;;
  let text := text2 in
  let embedding := encode text in
  yavs_call3 "append" fname embedding text rnd2.

End Example.

(** ** Sequences of calls on one store *)

Module Runs.

(** The arguments of one [insert] call on a given path. *)
Record insert_args : Type := InsertArgs {
  arg_embedding : list float;
  arg_metadata : metadata;
  arg_record_id : option (list byte);
  arg_rnd : Z
}.

Definition insert_with (filename : string) (a : insert_args) : io unit :=
  insert filename (arg_embedding a) (arg_metadata a) (arg_record_id a) (arg_rnd a).

(** The file system after [calls] are made in order, when every one of
    them returns; [None] as soon as one raises. *)
Fixpoint inserts_all_ok (filename : string) (calls : list insert_args) (fs : FS)
    : option FS :=
  match calls with
  | [] => Some fs
  | a :: rest =>
      match insert_with filename a fs with
      | (Ok _, fs') => inserts_all_ok filename rest fs'
      | (Raise _, _) => None
      end
  end.

(** An operation a caller can make on an existing store. *)
Inductive op : Type :=
| OpInsert (a : insert_args)
| OpGetHeaderInfo.

(** The file system an operation leaves, whether it returns or raises. *)
Definition run_op (filename : string) (o : op) (fs : FS) : FS :=
  match o with
  | OpInsert a => snd (insert_with filename a fs)
  | OpGetHeaderInfo => snd (get_header_info filename fs)
  end.

Definition run_ops (filename : string) (ops : list op) (fs : FS) : FS :=
  fold_left (fun fs o => run_op filename o fs) ops fs.

(** The record identifier [insert] writes. *)
Definition chosen_id (record_id : option (list byte)) (rnd : Z) : list byte :=
  match record_id with
  | None => uuid4_bytes rnd
  | Some r => r
  end.

(** The bytes [write_metadata] writes. *)
Definition meta_payload (m : metadata) : result (list byte) :=
  match m with
  | MetaBytes b => Ok b
  | MetaStr s => utf8_encode s
  end.

(** What one [insert] call does to the content [c] of the store file,
    step by step: the outcome and the content left behind.  [insert_content_eq]
    proves [insert] equal to it. *)
Definition insert_content (c : list byte) (embedding : list float)
    (meta : metadata) (record_id : option (list byte)) (rnd : Z)
    : result unit * list byte :=
  match read_header c with
  | Raise e => (Raise e, c)
  | Ok (n_records, dim) =>
      if bool_decide (len embedding <> dim) then
        (Raise (ValueError (dim_msg dim (len embedding))), c)
      else
        let rid := chosen_id record_id rnd in
        if bool_decide (len rid <> 16) then (Raise (ValueError id_msg), c)
        else
          match pack_floats embedding with
          | Raise e => (Raise e, c)
          | Ok eb =>
              match struct_pack 4 (meta_len meta) with
              | Raise e => (Raise e, c ++ rid ++ eb)
              | Ok ml =>
                  match meta_payload meta with
                  | Raise e => (Raise e, c ++ rid ++ eb ++ ml)
                  | Ok mb =>
                      match struct_pack 8 (n_records + 1) with
                      | Raise e => (Raise e, c ++ rid ++ eb ++ ml ++ mb)
                      | Ok cnt =>
                          (Ok tt, overwrite (c ++ rid ++ eb ++ ml ++ mb) 8 cnt)
                      end
                  end
              end
          end
  end.

(** The header as [create] lays it out. *)
Definition header_bytes (n_records dim : Z) : list byte :=
  MAGIC ++ le_bytes 4 VERSION ++ le_bytes 8 n_records ++ le_bytes 4 dim
        ++ zeros RESERVED_SIZE.

(** The header fields at their offsets in a file content. *)
Definition magic_field (c : list byte) : list byte := take 4 c.
Definition version_field (c : list byte) : list byte := take 4 (drop 4 c).
Definition count_field (c : list byte) : list byte := take 8 (drop 8 c).
Definition dimension_field (c : list byte) : list byte := take 4 (drop 16 c).
Definition reserved_field (c : list byte) : list byte := take 16 (drop 20 c).

End Runs.
Import Runs.

(** ** Records as they lie in the file *)

Module Records.

(** The bytes a returning [insert] puts at the end of the file: the
    identifier, the packed embedding, the length field and the payload. *)
Definition record_bytes (a : insert_args) : list byte :=
  chosen_id (arg_record_id a) (arg_rnd a)
  ++ match pack_floats (arg_embedding a) with
     | Ok eb => eb
     | Raise _ => []
     end
  ++ le_bytes 4 (meta_len (arg_metadata a))
  ++ match meta_payload (arg_metadata a) with
     | Ok mb => mb
     | Raise _ => []
     end.

(** How many of the [insert] calls among [ops], made in order from [fs],
    return. *)
Fixpoint inserts_returned (filename : string) (ops : list op) (fs : FS) : nat :=
  match ops with
  | [] => O
  | o :: rest =>
      (match o with
       | OpInsert a =>
           match insert_with filename a fs with
           | (Ok _, _) => 1%nat
           | (Raise _, _) => O
           end
       | OpGetHeaderInfo => O
       end + inserts_returned filename rest (run_op filename o fs))%nat
  end.

(** Text made of ASCII characters only. *)
Definition is_ascii (s : str) : Prop := Forall (fun cp => 0 <= cp < 128) s.

End Records.
Import Records.

Section BytesFacts.

Lemma Z_of_byte_range b : 0 <= Z_of_byte b < 256.
Proof.
  unfold Z_of_byte. pose proof (Byte.to_N_bounded b). lia.
Qed.

Lemma Z_of_byte_of_Z z : Z_of_byte (byte_of_Z z) = z mod 256.
Proof.
  unfold Z_of_byte, byte_of_Z.
  assert (Hr : 0 <= z mod 256 < 256) by (apply Z.mod_pos_bound; lia).
  destruct (Byte.of_N (Z.to_N (z mod 256))) as [b|] eqn:E.
  - apply Byte.to_of_N in E. rewrite E. lia.
  - apply Byte.of_N_None_iff in E. lia.
Qed.


Lemma length_le_bytes n v : length (le_bytes n v) = n.
Proof. revert v. induction n as [|n IH]; intros v; simpl; [|rewrite IH]; reflexivity. Qed.

Lemma le_value_le_bytes n v :
  0 <= v < 256 ^ Z.of_nat n -> le_value (le_bytes n v) = v.
Proof.
  revert v. induction n as [|n IH]; intros v Hv.
  - simpl in *. lia.
  - cbn [le_bytes le_value]. rewrite Z_of_byte_of_Z.
    rewrite Nat2Z.inj_succ, Z.pow_succ_r in Hv by lia.
    rewrite IH.
    + pose proof (Z.div_mod v 256). lia.
    + split; [apply Z.div_pos; lia | apply Z.div_lt_upper_bound; lia].
Qed.

Lemma le_value_range bs : 0 <= le_value bs < 256 ^ Z.of_nat (length bs).
Proof.
  induction bs as [|b r IH].
  - simpl. lia.
  - cbn [le_value length]. rewrite Nat2Z.inj_succ, Z.pow_succ_r by lia.
    pose proof (Z_of_byte_range b). lia.
Qed.

Lemma le_bytes_le_value bs : le_bytes (length bs) (le_value bs) = bs.
Proof.
  induction bs as [|b r IH]; [reflexivity|].
  cbn [le_value length le_bytes].
  pose proof (Z_of_byte_range b) as Hb.
  f_equal.
  - unfold byte_of_Z.
    replace ((Z_of_byte b + 256 * le_value r) mod 256) with (Z_of_byte b).
    + unfold Z_of_byte. rewrite N2Z.id, Byte.of_to_N. reflexivity.
    + rewrite Z.mul_comm, Z.mod_add by lia.
      symmetry. apply Z.mod_small. lia.
  - replace ((Z_of_byte b + 256 * le_value r) / 256) with (le_value r); [exact IH|].
    rewrite Z.add_comm, Z.mul_comm, Z.div_add_l by lia.
    rewrite (Z.div_small (Z_of_byte b)) by lia. lia.
Qed.

Lemma pack_uint_Some n v bs :
  pack_uint n v = Some bs -> 0 <= v < 256 ^ Z.of_nat n /\ bs = le_bytes n v.
Proof.
  unfold pack_uint. destruct (0 <=? v) eqn:E1; destruct (v <? 256 ^ Z.of_nat n) eqn:E2;
    simpl; intros H; inversion H; subst. split; [lia | reflexivity].
Qed.

Lemma pack_uint_fits n v :
  0 <= v < 256 ^ Z.of_nat n -> pack_uint n v = Some (le_bytes n v).
Proof.
  intros Hv. unfold pack_uint.
  destruct (0 <=? v) eqn:E1; destruct (v <? 256 ^ Z.of_nat n) eqn:E2; simpl; try reflexivity; lia.
Qed.



Lemma unpack_uint_Some n bs v :
  unpack_uint n bs = Some v -> length bs = n /\ v = le_value bs.
Proof.
  unfold unpack_uint. destruct (Nat.eqb (length bs) n) eqn:E; intros H; inversion H.
  apply Nat.eqb_eq in E. auto.
Qed.

End BytesFacts.

(** ** Facts about the file operations *)

Section FileFacts.

Implicit Types (fs : FS) (path : string) (c bs : list byte).

Lemma write_end_existing fs path c bs :
  fs !! path = Some c ->
  write_end path bs fs = (Ok tt, <[path := c ++ bs]> fs).
Proof. intros E. unfold write_end. rewrite E. reflexivity. Qed.

Lemma write_end_inserted fs path c bs :
  write_end path bs (<[path := c]> fs) = (Ok tt, <[path := c ++ bs]> fs).
Proof.
  unfold write_end. rewrite lookup_insert_eq, insert_insert_eq. reflexivity.
Qed.

Lemma write_at_inserted fs path c pos bs :
  write_at path pos bs (<[path := c]> fs) = (Ok tt, <[path := overwrite c pos bs]> fs).
Proof.
  unfold write_at. rewrite lookup_insert_eq, insert_insert_eq. reflexivity.
Qed.

Lemma open_ab_existing fs path c :
  fs !! path = Some c -> open_ab path fs = (Ok tt, fs).
Proof. intros E. unfold open_ab. rewrite E. reflexivity. Qed.

Lemma open_rwb_inserted fs path c :
  open_rwb path (<[path := c]> fs) = (Ok tt, <[path := c]> fs).
Proof. unfold open_rwb. rewrite lookup_insert_eq. reflexivity. Qed.

Lemma get_header_info_eq fs path :
  get_header_info path fs =
  match fs !! path with
  | None => (Raise FileNotFoundError, fs)
  | Some c => (read_header c, fs)
  end.
Proof.
  unfold get_header_info, bind, open_rb, lift. destruct (fs !! path); reflexivity.
Qed.

Lemma get_header_info_state fs path : snd (get_header_info path fs) = fs.
Proof. rewrite get_header_info_eq. destruct (fs !! path); reflexivity. Qed.

Lemma insert_content_eq fs path emb meta rid rnd :
  insert path emb meta rid rnd fs =
  match fs !! path with
  | None => (Raise FileNotFoundError, fs)
  | Some c =>
      let '(r, c') := insert_content c emb meta rid rnd in
      (r, <[path := c']> fs)
  end.
Proof.
  unfold insert. unfold bind at 1. rewrite get_header_info_eq.
  destruct (fs !! path) as [c|] eqn:E; [|reflexivity].
  unfold insert_content. fold (chosen_id rid rnd).
  pose proof (insert_id fs path c E) as Hid.
  destruct (read_header c) as [[n d]|e]; [|rewrite Hid; reflexivity].
  destruct (bool_decide (len emb <> d)); [unfold raise; rewrite Hid; reflexivity|].
  destruct (bool_decide (len (chosen_id rid rnd) <> 16));
    [unfold raise; rewrite Hid; reflexivity|].
  unfold bind, lift.
  destruct (pack_floats emb) as [eb|e]; [|rewrite Hid; reflexivity].
  rewrite (open_ab_existing _ _ _ E), (write_end_existing _ _ _ _ E).
  rewrite write_end_inserted, <- app_assoc.
  destruct (struct_pack 4 (meta_len meta)) as [ml|e]; [|reflexivity].
  rewrite write_end_inserted, <- !app_assoc.
  unfold write_metadata, meta_payload.
  destruct meta as [b|s].
  - rewrite write_end_inserted, <- !app_assoc, open_rwb_inserted.
    destruct (struct_pack 8 (n + 1)) as [cnt|e]; [|reflexivity].
    apply write_at_inserted.
  - unfold bind, lift.
    destruct (utf8_encode s) as [mb|e]; [|reflexivity].
    rewrite write_end_inserted, <- !app_assoc, open_rwb_inserted.
    destruct (struct_pack 8 (n + 1)) as [cnt|e]; [|reflexivity].
    apply write_at_inserted.
Qed.

Lemma struct_pack_Ok n v bs :
  struct_pack n v = Ok bs <-> (0 <= v < 256 ^ Z.of_nat n /\ bs = le_bytes n v).
Proof.
  unfold struct_pack. split.
  - destruct (pack_uint n v) as [b|] eqn:E; [|discriminate].
    intros [= <-]. apply pack_uint_Some; exact E.
  - intros [Hv ->]. rewrite pack_uint_fits by exact Hv. reflexivity.
Qed.


Lemma create_eq fs path dim :
  0 <= dim < 2 ^ 32 ->
  create path dim fs = (Ok tt, <[path := header_bytes 0 dim]> fs).
Proof.
  intros Hd. unfold create, bind, open_wb, lift.
  rewrite write_end_inserted. simpl app.
  assert (Hv : struct_pack 4 VERSION = Ok (le_bytes 4 VERSION)) by reflexivity.
  assert (Hn : struct_pack 8 0 = Ok (le_bytes 8 0)) by reflexivity.
  assert (Hp : struct_pack 4 dim = Ok (le_bytes 4 dim)).
  { apply struct_pack_Ok. split; [|reflexivity]. change (256 ^ Z.of_nat 4) with (2 ^ 32). lia. }
  rewrite Hv, write_end_inserted, Hn, write_end_inserted, Hp, write_end_inserted.
  rewrite write_end_inserted. unfold header_bytes.
  rewrite <- !app_assoc. reflexivity.
Qed.

Lemma create_out_of_range fs path dim :
  ~ (0 <= dim < 2 ^ 32) ->
  create path dim fs =
  (Raise struct_error, <[path := MAGIC ++ le_bytes 4 VERSION ++ le_bytes 8 0]> fs).
Proof.
  intros Hd. unfold create, bind, open_wb, lift.
  rewrite write_end_inserted. simpl app.
  assert (Hv : struct_pack 4 VERSION = Ok (le_bytes 4 VERSION)) by reflexivity.
  assert (Hn : struct_pack 8 0 = Ok (le_bytes 8 0)) by reflexivity.
  rewrite Hv, write_end_inserted, Hn, write_end_inserted.
  destruct (struct_pack 4 dim) as [bs|e] eqn:E.
  - apply struct_pack_Ok in E as [Hv' _]. change (256 ^ Z.of_nat 4) with (2 ^ 32) in Hv'. lia.
  - unfold struct_pack in E. destruct (pack_uint 4 dim); [discriminate|].
    injection E as <-. rewrite <- !app_assoc. reflexivity.
Qed.

End FileFacts.

(** ** Facts about the header *)

Section HeaderFacts.

Implicit Types (c nb db rest : list byte) (n d : Z).

Lemma overwrite_middle (p old rest bs : list byte) pos :
  length p = pos -> length old = length bs ->
  overwrite (p ++ old ++ rest) pos bs = p ++ bs ++ rest.
Proof.
  intros Hp Ho. unfold overwrite.
  rewrite take_app_length' by done.
  rewrite length_app, Hp.
  replace (pos - (pos + length (old ++ rest)))%nat with 0%nat by lia.
  simpl. f_equal. f_equal.
  rewrite drop_app_add' by done.
  rewrite drop_app_length' by done. reflexivity.
Qed.


Lemma struct_unpack_Ok k bs v :
  struct_unpack k bs = Ok v <-> (length bs = k /\ le_value bs = v).
Proof.
  unfold struct_unpack, unpack_uint. split.
  - destruct (Nat.eqb (length bs) k) eqn:E; [|discriminate].
    intros [= <-]. apply Nat.eqb_eq in E. auto.
  - intros [Hl <-]. apply Nat.eqb_eq in Hl. rewrite Hl. reflexivity.
Qed.

Lemma read_header_layout c n d :
  read_header c = Ok (n, d) <->
  exists nb db rest,
    c = MAGIC ++ le_bytes 4 VERSION ++ nb ++ db ++ rest /\
    length nb = 8%nat /\ length db = 4%nat /\ le_value nb = n /\ le_value db = d.
Proof.
  unfold read_header, read. split.
  - destruct (bool_decide (take 4 c <> MAGIC)) eqn:Em; [discriminate|].
    apply bool_decide_eq_false in Em. apply dec_stable in Em.
    destruct (struct_unpack 4 (take 4 (drop 4 c))) as [v|e] eqn:Ev; [|discriminate].
    destruct (bool_decide (v <> VERSION)) eqn:Ever; [discriminate|].
    apply bool_decide_eq_false in Ever. apply dec_stable in Ever. subst v.
    destruct (struct_unpack 8 (take 8 (drop 4 (drop 4 c)))) as [n'|e] eqn:En; [|discriminate].
    destruct (struct_unpack 4 (take 4 (drop 8 (drop 4 (drop 4 c))))) as [d'|e] eqn:Ed;
      [|discriminate].
    intros [= <- <-].
    apply struct_unpack_Ok in Ev as [Hvl Hvv], En as [Hnl Hnv], Ed as [Hdl Hdv].
    exists (take 8 (drop 4 (drop 4 c))), (take 4 (drop 8 (drop 4 (drop 4 c)))),
           (drop 4 (drop 8 (drop 4 (drop 4 c)))).
    repeat split; try assumption.
    rewrite <- Em.
    replace (le_bytes 4 VERSION) with (take 4 (drop 4 c)).
    + rewrite !take_drop. reflexivity.
    + pose proof (le_bytes_le_value (take 4 (drop 4 c))) as Hb.
      rewrite Hvl, Hvv in Hb. symmetry. exact Hb.
  - intros (nb & db & rest & -> & Hnl & Hdl & <- & <-).
    rewrite (take_app_length' MAGIC) by reflexivity.
    rewrite (bool_decide_eq_false_2 (MAGIC <> MAGIC)) by (intros H; apply H; reflexivity).
    rewrite (drop_app_length' MAGIC) by reflexivity.
    rewrite (take_app_length' (le_bytes 4 VERSION)) by reflexivity.
    rewrite (drop_app_length' (le_bytes 4 VERSION)) by reflexivity.
    change (struct_unpack 4 (le_bytes 4 VERSION)) with (@Ok Z VERSION).
    cbv iota beta.
    rewrite (bool_decide_eq_false_2 (VERSION <> VERSION)) by (intros H; apply H; reflexivity).
    rewrite (take_app_length' nb) by done.
    rewrite (drop_app_length' nb) by done.
    rewrite (take_app_length' db) by done.
    rewrite (proj2 (struct_unpack_Ok 8 nb (le_value nb))) by auto.
    rewrite (proj2 (struct_unpack_Ok 4 db (le_value db))) by auto.
    reflexivity.
Qed.

Lemma read_header_fresh n d :
  0 <= n < 2 ^ 64 -> 0 <= d < 2 ^ 32 ->
  read_header (header_bytes n d) = Ok (n, d).
Proof.
  intros Hn Hd. apply read_header_layout.
  exists (le_bytes 8 n), (le_bytes 4 d), (zeros RESERVED_SIZE).
  rewrite !length_le_bytes, !le_value_le_bytes.
  - repeat split; reflexivity.
  - change (256 ^ Z.of_nat 4) with (2 ^ 32). lia.
  - change (256 ^ Z.of_nat 8) with (2 ^ 64). lia.
Qed.

Lemma read_header_range c n d :
  read_header c = Ok (n, d) -> 0 <= n < 2 ^ 64 /\ 0 <= d < 2 ^ 32.
Proof.
  intros H. apply read_header_layout in H as (nb & db & rest & _ & Hnl & Hdl & <- & <-).
  pose proof (le_value_range nb) as Hn. pose proof (le_value_range db) as Hd.
  rewrite Hnl in Hn. rewrite Hdl in Hd.
  change (256 ^ Z.of_nat 8) with (2 ^ 64) in Hn.
  change (256 ^ Z.of_nat 4) with (2 ^ 32) in Hd. lia.
Qed.

Lemma layout_take_8 nb db rest :
  take 8 (MAGIC ++ le_bytes 4 VERSION ++ nb ++ db ++ rest) = MAGIC ++ le_bytes 4 VERSION.
Proof. reflexivity. Qed.

Lemma layout_drop_16 nb db rest :
  length nb = 8%nat ->
  drop 16 (MAGIC ++ le_bytes 4 VERSION ++ nb ++ db ++ rest) = db ++ rest.
Proof.
  intros Hnl. change (drop 16 (MAGIC ++ le_bytes 4 VERSION ++ nb ++ db ++ rest))
    with (drop 8 (nb ++ db ++ rest)).
  apply drop_app_length'. done.
Qed.

End HeaderFacts.

(** ** Facts about [insert] *)

Section InsertFacts.

Implicit Types (fs : FS) (path : string) (c : list byte) (n d : Z).

(** A successful [insert]: every check passed, and the new content is the old
    one with the count field replaced and one record at the end. *)
Lemma insert_content_Ok c emb meta rid rnd c' :
  insert_content c emb meta rid rnd = (Ok tt, c') ->
  exists n d eb mb,
    read_header c = Ok (n, d) /\
    len emb = d /\ length (chosen_id rid rnd) = 16%nat /\
    pack_floats emb = Ok eb /\
    0 <= meta_len meta < 2 ^ 32 /\ meta_payload meta = Ok mb /\
    0 <= n + 1 < 2 ^ 64 /\
    c' = take 8 c ++ le_bytes 8 (n + 1) ++ drop 16 c
           ++ chosen_id rid rnd ++ eb ++ le_bytes 4 (meta_len meta) ++ mb.
Proof.
  unfold insert_content.
  destruct (read_header c) as [[n d]|e] eqn:Eh; [|discriminate].
  destruct (bool_decide (len emb <> d)) eqn:Ed; [discriminate|].
  apply bool_decide_eq_false in Ed. apply dec_stable in Ed.
  destruct (bool_decide (len (chosen_id rid rnd) <> 16)) eqn:Ei; [discriminate|].
  apply bool_decide_eq_false in Ei. apply dec_stable in Ei.
  destruct (pack_floats emb) as [eb|e] eqn:Ep; [|discriminate].
  destruct (struct_pack 4 (meta_len meta)) as [ml|e] eqn:Em; [|discriminate].
  destruct (meta_payload meta) as [mb|e] eqn:Emb; [|discriminate].
  destruct (struct_pack 8 (n + 1)) as [cnt|e] eqn:Ec; [|discriminate].
  intros [= <-].
  apply struct_pack_Ok in Em as [Hm ->], Ec as [Hc ->].
  exists n, d, eb, mb. repeat split; try assumption; try lia.
  - unfold len in Ei. lia.
  - apply read_header_layout in Eh as (nb & db & rest & -> & Hnl & Hdl & _ & _).
    rewrite layout_take_8, layout_drop_16 by exact Hnl.
    pose proof (overwrite_middle (MAGIC ++ le_bytes 4 VERSION) nb
      (db ++ rest ++ chosen_id rid rnd ++ eb ++ le_bytes 4 (meta_len meta) ++ mb)
      (le_bytes 8 (n + 1)) 8 eq_refl) as Ho.
    rewrite length_le_bytes in Ho. specialize (Ho Hnl).
    rewrite <- !app_assoc in *. exact Ho.
Qed.

(** Conversely, a call that passes every check succeeds. *)
Lemma insert_content_valid c emb meta rid rnd n d eb mb :
  read_header c = Ok (n, d) ->
  len emb = d -> length (chosen_id rid rnd) = 16%nat ->
  pack_floats emb = Ok eb ->
  0 <= meta_len meta < 2 ^ 32 -> meta_payload meta = Ok mb ->
  n + 1 < 2 ^ 64 ->
  fst (insert_content c emb meta rid rnd) = Ok tt.
Proof.
  intros Eh Ed Ei Ep Hm Emb Hn. unfold insert_content. rewrite Eh.
  rewrite (bool_decide_eq_false_2 (len emb <> d)) by (intros H; apply H; exact Ed).
  rewrite (bool_decide_eq_false_2 (len (chosen_id rid rnd) <> 16))
    by (intros H; apply H; unfold len; lia).
  rewrite Ep.
  rewrite (proj2 (struct_pack_Ok 4 (meta_len meta) _) (conj Hm eq_refl)).
  rewrite Emb.
  apply read_header_range in Eh as [Hn0 _].
  assert (Hc : 0 <= n + 1 < 256 ^ Z.of_nat 8)
    by (change (256 ^ Z.of_nat 8) with (2 ^ 64); lia).
  rewrite (proj2 (struct_pack_Ok 8 (n + 1) _) (conj Hc eq_refl)).
  reflexivity.
Qed.

(** Whatever the outcome, [insert] leaves the first 8 bytes and everything
    from offset 16 on in place, and can only add bytes at the end; it
    changes something only when the header was readable. *)
Lemma insert_content_shape c emb meta rid rnd :
  let c' := snd (insert_content c emb meta rid rnd) in
  c' = c \/
  (exists n d cnt tail,
     read_header c = Ok (n, d) /\ length cnt = 8%nat /\
     c' = take 8 c ++ cnt ++ drop 16 c ++ tail).
Proof.
  unfold insert_content.
  destruct (read_header c) as [[n d]|e] eqn:Eh; [|left; reflexivity].
  destruct (bool_decide (len emb <> d)); [left; reflexivity|].
  destruct (bool_decide (len (chosen_id rid rnd) <> 16)); [left; reflexivity|].
  destruct (pack_floats emb) as [eb|e]; [|left; reflexivity].
  assert (Hsplit : forall tail,
    c ++ tail = take 8 c ++ take 8 (drop 8 c) ++ drop 16 c ++ tail).
  { intros tail. rewrite !app_assoc. f_equal.
    rewrite <- (take_drop 8 c) at 1. rewrite <- app_assoc. f_equal.
    rewrite <- (take_drop 8 (drop 8 c)) at 1. rewrite drop_drop. reflexivity. }
  assert (Hlen : length (take 8 (drop 8 c)) = 8%nat).
  { apply read_header_layout in Eh as (nb & db & rest & -> & Hnl & Hdl & _ & _).
    rewrite length_take, length_drop, !length_app, Hnl, Hdl. simpl. lia. }
  destruct (struct_pack 4 (meta_len meta)) as [ml|e];
    [|right; exists n, d, (take 8 (drop 8 c)), (chosen_id rid rnd ++ eb);
      simpl; auto].
  destruct (meta_payload meta) as [mb|e];
    [|right; exists n, d, (take 8 (drop 8 c)), (chosen_id rid rnd ++ eb ++ ml);
      simpl; auto].
  destruct (struct_pack 8 (n + 1)) as [cnt|e] eqn:Ec;
    [|right; exists n, d, (take 8 (drop 8 c)), (chosen_id rid rnd ++ eb ++ ml ++ mb);
      simpl; auto].
  right. exists n, d, cnt, (chosen_id rid rnd ++ eb ++ ml ++ mb).
  apply struct_pack_Ok in Ec as [_ ->]. simpl snd.
  split; [reflexivity|]. split; [apply length_le_bytes|].
  rewrite (Hsplit (chosen_id rid rnd ++ eb ++ ml ++ mb)).
  apply overwrite_middle; [|rewrite length_le_bytes; exact Hlen].
  apply read_header_layout in Eh as (nb & db & rest & -> & Hnl & Hdl & _ & _).
  rewrite length_take, !length_app, Hnl. simpl. lia.
Qed.

Lemma uuid4_bytes_length rnd : length (uuid4_bytes rnd) = 16%nat.
Proof. unfold uuid4_bytes, be_bytes. rewrite length_rev. apply length_le_bytes. Qed.

End InsertFacts.

(** ** Facts about sequences of operations *)

Section RunFacts.

Implicit Types (fs : FS) (path : string) (c cnt tail : list byte) (n d : Z).

Lemma read_header_length c n d : read_header c = Ok (n, d) -> (20 <= length c)%nat.
Proof.
  intros H. apply read_header_layout in H as (nb & db & rest & -> & Hnl & Hdl & _ & _).
  rewrite !length_app, Hnl, Hdl. simpl. lia.
Qed.

(** Any content of 16 bytes or more is its first 8 bytes, its count field
    and the rest. *)
Lemma content_split c :
  (16 <= length c)%nat ->
  c = take 8 c ++ take 8 (drop 8 c) ++ drop 16 c ++ [] /\
  length (take 8 (drop 8 c)) = 8%nat.
Proof.
  intros Hl. split.
  - rewrite app_nil_r.
    rewrite <- (take_drop 8 c) at 1. f_equal.
    rewrite <- (take_drop 8 (drop 8 c)) at 1. rewrite drop_drop. reflexivity.
  - rewrite length_take, length_drop. lia.
Qed.

(** Replacing the count field and appending, twice, is doing it once. *)
Lemma patched_twice c cnt1 tail1 cnt2 tail2 :
  (16 <= length c)%nat -> length cnt1 = 8%nat ->
  let c1 := take 8 c ++ cnt1 ++ drop 16 c ++ tail1 in
  take 8 c1 ++ cnt2 ++ drop 16 c1 ++ tail2
  = take 8 c ++ cnt2 ++ drop 16 c ++ (tail1 ++ tail2).
Proof.
  intros Hl H1. cbv zeta.
  assert (H8 : length (take 8 c) = 8%nat) by (rewrite length_take; lia).
  rewrite (take_app_length' (take 8 c)) by done.
  change 16%nat with (8 + 8)%nat at 1.
  rewrite (drop_app_add' (take 8 c)) by done.
  rewrite (drop_app_length' cnt1) by done.
  rewrite <- !app_assoc. reflexivity.
Qed.

(** The fields of a content whose count field was replaced and to which
    bytes were appended. *)
Lemma patched_fields c cnt tail :
  (36 <= length c)%nat -> length cnt = 8%nat ->
  let c' := take 8 c ++ cnt ++ drop 16 c ++ tail in
  magic_field c' = magic_field c /\
  version_field c' = version_field c /\
  count_field c' = cnt /\
  dimension_field c' = dimension_field c /\
  reserved_field c' = reserved_field c /\
  drop 36 c' = drop 36 c ++ tail /\
  (36 <= length c')%nat.
Proof.
  intros Hl Hc. cbv zeta.
  assert (H8 : length (take 8 c) = 8%nat) by (rewrite length_take; lia).
  assert (Hd16 : drop 16 (take 8 c ++ cnt ++ drop 16 c ++ tail) = drop 16 c ++ tail).
  { change 16%nat with (8 + 8)%nat at 1.
    rewrite (drop_app_add' (take 8 c)) by done.
    apply drop_app_length'. done. }
  assert (Hl16 : (20 <= length (drop 16 c))%nat) by (rewrite length_drop; lia).
  unfold magic_field, version_field, count_field, dimension_field, reserved_field.
  repeat split.
  - rewrite take_app_le by lia. rewrite take_take. reflexivity.
  - rewrite drop_app_le by lia. rewrite take_app_le by (rewrite length_drop; lia).
    rewrite (take_drop_commute c 4 4). change (4 + 4)%nat with 8%nat.
    apply take_ge. rewrite length_drop. lia.
  - rewrite (drop_app_length' (take 8 c)) by done. apply take_app_length'. done.
  - rewrite Hd16. apply take_app_le. lia.
  - change 20%nat with (16 + 4)%nat. rewrite <- !drop_drop, Hd16.
    rewrite drop_app_le by lia. apply take_app_le. rewrite length_drop. lia.
  - change 36%nat with (16 + 20)%nat. rewrite <- !drop_drop, Hd16.
    apply drop_app_le. lia.
  - rewrite !length_app, length_drop. lia.
Qed.

Lemma run_op_shape path o fs c :
  fs !! path = Some c ->
  exists c',
    run_op path o fs !! path = Some c' /\
    (c' = c \/
     ((20 <= length c)%nat /\
      exists cnt tail, length cnt = 8%nat /\ c' = take 8 c ++ cnt ++ drop 16 c ++ tail)).
Proof.
  intros E. destruct o as [a|]; simpl.
  - unfold insert_with. rewrite insert_content_eq, E.
    pose proof (insert_content_shape c (arg_embedding a) (arg_metadata a)
                  (arg_record_id a) (arg_rnd a)) as Hs.
    destruct (insert_content c (arg_embedding a) (arg_metadata a)
                (arg_record_id a) (arg_rnd a)) as [r c'].
    simpl in *. exists c'. split; [apply lookup_insert_eq|].
    destruct Hs as [-> | (n & d & cnt & tail & Hh & Hc & ->)]; [left; reflexivity|].
    right. split; [eapply read_header_length; exact Hh|]. eauto.
  - rewrite get_header_info_state. exists c. auto.
Qed.


Lemma run_ops_shape path ops fs c :
  fs !! path = Some c ->
  exists c',
    run_ops path ops fs !! path = Some c' /\
    (c' = c \/
     ((20 <= length c)%nat /\
      exists cnt tail, length cnt = 8%nat /\ c' = take 8 c ++ cnt ++ drop 16 c ++ tail)).
Proof.
  revert fs c. induction ops as [|o ops IH]; intros fs c E.
  - exists c. simpl. auto.
  - simpl. destruct (run_op_shape path o fs c E) as (c1 & E1 & H1).
    destruct (IH _ _ E1) as (c2 & E2 & H2).
    exists c2. split; [exact E2|].
    destruct H1 as [-> | (Hl & cnt1 & tail1 & Hc1 & ->)]; [exact H2|].
    right. split; [exact Hl|].
    destruct H2 as [-> | (_ & cnt2 & tail2 & Hc2 & ->)]; [eauto|].
    exists cnt2, (tail1 ++ tail2). split; [exact Hc2|].
    apply patched_twice; [lia | exact Hc1].
Qed.

(** With 16 bytes or more, "unchanged" is a case of "patched". *)
Lemma shape_normal c c' :
  (16 <= length c)%nat ->
  (c' = c \/
   ((20 <= length c)%nat /\
    exists cnt tail, length cnt = 8%nat /\ c' = take 8 c ++ cnt ++ drop 16 c ++ tail)) ->
  exists cnt tail, length cnt = 8%nat /\ c' = take 8 c ++ cnt ++ drop 16 c ++ tail.
Proof.
  intros Hl [-> | (_ & H)]; [|exact H].
  destruct (content_split c Hl) as [Hs Hc]. eauto.
Qed.

(** A successful [insert] moves a readable header from [(n, d)] to
    [(n + 1, d)]. *)
Lemma insert_Ok_header path a fs fs' n d :
  get_header_info path fs = (Ok (n, d), fs) ->
  insert_with path a fs = (Ok tt, fs') ->
  get_header_info path fs' = (Ok (n + 1, d), fs').
Proof.
  intros Hh Hi. rewrite get_header_info_eq in Hh.
  unfold insert_with in Hi. rewrite insert_content_eq in Hi.
  destruct (fs !! path) as [c|] eqn:E; [|discriminate].
  injection Hh as Hh.
  destruct (insert_content c _ _ _ _) as [r c'] eqn:Ec.
  injection Hi as -> <-.
  apply insert_content_Ok in Ec as (n' & d' & eb & mb & Hh' & _ & _ & _ & _ & _ & Hn & ->).
  rewrite Hh in Hh'. injection Hh' as <- <-.
  rewrite get_header_info_eq, lookup_insert_eq. f_equal.
  apply read_header_layout in Hh as (nb & db & rest & -> & Hnl & Hdl & _ & <-).
  rewrite layout_take_8, layout_drop_16 by exact Hnl.
  apply read_header_layout.
  eexists (le_bytes 8 (n + 1)), db, _.
  rewrite <- !app_assoc. split; [reflexivity|].
  rewrite length_le_bytes, le_value_le_bytes; [auto|].
  change (256 ^ Z.of_nat 8) with (2 ^ 64). exact Hn.
Qed.

Lemma inserts_all_ok_header path calls fs fs' n d :
  get_header_info path fs = (Ok (n, d), fs) ->
  inserts_all_ok path calls fs = Some fs' ->
  get_header_info path fs' = (Ok (n + len calls, d), fs').
Proof.
  revert fs n. induction calls as [|a calls IH]; intros fs n Hh Hr.
  - simpl in Hr. injection Hr as <-. unfold len. simpl. rewrite Z.add_0_r. exact Hh.
  - simpl in Hr. destruct (insert_with path a fs) as [[[]|e] fs1] eqn:Ei; [|discriminate].
    pose proof (insert_Ok_header _ _ _ _ _ _ Hh Ei) as Hh1.
    specialize (IH _ _ Hh1 Hr).
    replace (n + len (a :: calls)) with (n + 1 + len calls); [exact IH|].
    unfold len. simpl length. lia.
Qed.

Lemma create_Ok_inv path d fs fs1 :
  create path d fs = (Ok tt, fs1) ->
  0 <= d < 2 ^ 32 /\ fs1 = <[path := header_bytes 0 d]> fs.
Proof.
  intros H. destruct (decide (0 <= d < 2 ^ 32)) as [Hd|Hd].
  - rewrite create_eq in H by exact Hd. injection H as <-. auto.
  - rewrite create_out_of_range in H by exact Hd. discriminate.
Qed.

End RunFacts.

(** ** The operations of [yavs.py], claim by claim *)

Section Create.

(** C3, as stated, fails at [dim = -1]: the dimension is packed as an
    unsigned 32-bit field, and [struct.pack] refuses a negative value; the
    call raises after the first 16 header bytes were written. *)
Lemma create_negative_dim_raises :
  create "db.yavs" (-1) ∅ =
  (Raise struct_error, {["db.yavs" := MAGIC ++ le_bytes 4 VERSION ++ le_bytes 8 0]}).
Proof. vm_compute. reflexivity. Qed.

(** C3 (amended): [create] makes no check of its own on the dimension; for
    every integer [dim] of the unsigned 32-bit range, zero included, the call
    returns and the header's 4-byte dimension field holds [dim] as given. *)
Theorem create_stores_dim_as_given (path : string) (dim : Z) (fs : FS) :
  0 <= dim < 2 ^ 32 ->
  exists c,
    create path dim fs = (Ok tt, <[path := c]> fs) /\
    c = header_bytes 0 dim /\
    dimension_field c = le_bytes 4 dim /\
    struct_unpack 4 (dimension_field c) = Ok dim.
Proof.
  intros Hd. exists (header_bytes 0 dim).
  split; [apply create_eq; exact Hd|]. split; [reflexivity|].
  assert (Hf : dimension_field (header_bytes 0 dim) = le_bytes 4 dim).
  { unfold dimension_field, header_bytes.
    rewrite layout_drop_16 by apply length_le_bytes.
    apply take_app_length'. rewrite length_le_bytes. reflexivity. }
  split; [exact Hf|]. rewrite Hf. apply struct_unpack_Ok.
  split; [apply length_le_bytes|]. apply le_value_le_bytes.
  change (256 ^ Z.of_nat 4) with (2 ^ 32). exact Hd.
Qed.

Lemma create_stores_dim_as_given_zero :
  exists c,
    create "db.yavs" 0 ∅ = (Ok tt, <["db.yavs" := c]> ∅) /\
    c = header_bytes 0 0 /\
    dimension_field c = le_bytes 4 0 /\
    struct_unpack 4 (dimension_field c) = Ok 0.
Proof. apply (create_stores_dim_as_given "db.yavs" 0 ∅). lia. Defined.

(** C4, as stated, fails at the positive dimension [2 ^ 32]: [create] raises
    while packing it, and the 16 bytes it leaves have no dimension field
    for [get_header_info] to read. *)
Lemma create_dim_two_pow_32 :
  fst (create "db.yavs" 4294967296 ∅) = Raise struct_error /\
  fst (get_header_info "db.yavs" (snd (create "db.yavs" 4294967296 ∅)))
  = Raise struct_error.
Proof. split; vm_compute; reflexivity. Qed.

(** C4 (amended): for every positive dimension [d] below [2 ^ 32],
    [create path d] followed by [get_header_info path] returns [(0, d)]. *)
Theorem create_then_get_header_info (path : string) (d : Z) (fs : FS) :
  0 < d < 2 ^ 32 ->
  exists fs1,
    create path d fs = (Ok tt, fs1) /\
    get_header_info path fs1 = (Ok (0, d), fs1).
Proof.
  intros Hd. exists (<[path := header_bytes 0 d]> fs).
  split; [apply create_eq; lia|].
  rewrite get_header_info_eq, lookup_insert_eq.
  rewrite read_header_fresh by lia. reflexivity.
Qed.

Lemma create_then_get_header_info_384 :
  exists fs1,
    create "db.yavs" 384 ∅ = (Ok tt, fs1) /\
    get_header_info "db.yavs" fs1 = (Ok (0, 384), fs1).
Proof. apply (create_then_get_header_info "db.yavs" 384 ∅). lia. Defined.

End Create.

Section GetHeaderInfo.

(** C5: on an existing file whose first 4 bytes are not the magic,
    [get_header_info] raises the invalid-format error; when the magic is
    right and the 4-byte version field holds a value other than 1, it
    raises the version-mismatch error, whose message carries the expected
    version (1) and the one found.  In both cases nothing is written. *)
Theorem get_header_info_rejects (path : string) (fs : FS) (c : list byte) :
  fs !! path = Some c ->
  (magic_field c <> MAGIC ->
   get_header_info path fs = (Raise (ValueError "Not a valid YAVS file."), fs)) /\
  (forall found,
     magic_field c = MAGIC ->
     struct_unpack 4 (version_field c) = Ok found ->
     found <> 1 ->
     get_header_info path fs =
     (Raise (ValueError
        ("File version mismatch. Expected 1, got " ++ fmt found ++ ".")%string), fs)).
Proof.
  intros E. rewrite get_header_info_eq, E. unfold read_header, read.
  unfold magic_field, version_field. split.
  - intros Hm. rewrite (bool_decide_eq_true_2 (take 4 c <> MAGIC)) by exact Hm.
    reflexivity.
  - intros found Hm Hv Hne.
    rewrite (bool_decide_eq_false_2 (take 4 c <> MAGIC)) by (intros H; apply H; exact Hm).
    rewrite Hv.
    rewrite (bool_decide_eq_true_2 (found <> VERSION)) by exact Hne.
    reflexivity.
Qed.

Lemma get_header_info_rejects_examples :
  get_header_info "a" {["a" := [x59; x41; x56]]}
  = (Raise (ValueError "Not a valid YAVS file."), {["a" := [x59; x41; x56]]}) /\
  get_header_info "b" {["b" := MAGIC ++ le_bytes 4 2 ++ le_bytes 8 0 ++ le_bytes 4 3]}
  = (Raise (ValueError "File version mismatch. Expected 1, got 2."),
     {["b" := MAGIC ++ le_bytes 4 2 ++ le_bytes 8 0 ++ le_bytes 4 3]}).
Proof.
  split.
  - apply (get_header_info_rejects "a" {["a" := [x59; x41; x56]]} [x59; x41; x56]).
    + apply lookup_singleton_eq.
    + vm_compute. discriminate.
  - refine (proj2 (get_header_info_rejects "b"
             {["b" := MAGIC ++ le_bytes 4 2 ++ le_bytes 8 0 ++ le_bytes 4 3]}
             (MAGIC ++ le_bytes 4 2 ++ le_bytes 8 0 ++ le_bytes 4 3) _) 2 _ _ _).
    + apply lookup_singleton_eq.
    + reflexivity.
    + reflexivity.
    + lia.
Defined.

End GetHeaderInfo.

Section Insert.

Implicit Types (fs : FS) (path : string) (c : list byte) (n d : Z).

Lemma insert_content_valid_eq c emb meta rid rnd n d eb mb :
  read_header c = Ok (n, d) ->
  len emb = d -> length (chosen_id rid rnd) = 16%nat ->
  pack_floats emb = Ok eb ->
  0 <= meta_len meta < 2 ^ 32 -> meta_payload meta = Ok mb ->
  n + 1 < 2 ^ 64 ->
  insert_content c emb meta rid rnd =
  (Ok tt, take 8 c ++ le_bytes 8 (n + 1) ++ drop 16 c
            ++ chosen_id rid rnd ++ eb ++ le_bytes 4 (meta_len meta) ++ mb).
Proof.
  intros Eh Ed Ei Ep Hm Emb Hn.
  pose proof (insert_content_valid c emb meta rid rnd n d eb mb Eh Ed Ei Ep Hm Emb Hn) as Hok.
  destruct (insert_content c emb meta rid rnd) as [r c'] eqn:E.
  simpl in Hok. subst r.
  apply insert_content_Ok in E
    as (n' & d' & eb' & mb' & Eh' & _ & _ & Ep' & _ & Emb' & _ & ->).
  rewrite Eh in Eh'. rewrite Ep in Ep'. rewrite Emb in Emb'.
  injection Eh' as <- <-. injection Ep' as <-. injection Emb' as <-.
  reflexivity.
Qed.

(** The record a returning [insert] appends when the metadata is text: the
    length field holds the number of characters of the text, the payload
    its UTF-8 encoding. *)
Lemma insert_text_record path fs c emb s rid rnd fs' :
  fs !! path = Some c ->
  insert path emb (MetaStr s) rid rnd fs = (Ok tt, fs') ->
  exists c' eb payload,
    fs' !! path = Some c' /\
    utf8_encode s = Ok payload /\
    drop (length c) c' = chosen_id rid rnd ++ eb ++ le_bytes 4 (len s) ++ payload.
Proof.
  intros E Hi. rewrite insert_content_eq, E in Hi.
  destruct (insert_content c emb (MetaStr s) rid rnd) as [r c'] eqn:Ec.
  injection Hi as -> <-.
  apply insert_content_Ok in Ec
    as (n & d & eb & mb & Hh & _ & _ & _ & _ & Emb & _ & ->).
  eexists _, eb, mb. split; [apply lookup_insert_eq|]. split; [exact Emb|].
  apply read_header_layout in Hh as (nb & db & rest & -> & Hnl & Hdl & _ & _).
  rewrite layout_take_8, layout_drop_16 by exact Hnl.
  rewrite !(app_assoc _ _ (chosen_id rid rnd ++ _)).
  apply drop_app_length'.
  rewrite !length_app, !length_le_bytes, Hnl. reflexivity.
Qed.

(** C1 holds for ASCII text only.  Evaluated on a store of dimension 1 and
    the one-character text U+00E9: the call returns, the stored payload is
    the UTF-8 encoding of the text (2 bytes, at offset 60), and the 4-byte
    length field before it (offset 56) holds 1, the number of characters,
    not the number of payload bytes. *)
Theorem insert_text_length_field_counts_characters :
  let text := [233] in
  let fs1 := snd (create "db.yavs" 1 ∅) in
  let r := insert "db.yavs" [S754_finite false 1 0] (MetaStr text) None 0 fs1 in
  fst r = Ok tt /\
  exists c,
    snd r !! "db.yavs" = Some c /\
    utf8_encode text = Ok (drop 60 c) /\
    length (drop 60 c) = 2%nat /\
    struct_unpack 4 (take 4 (drop 56 c)) = Ok 1.
Proof.
  cbv zeta. split; [vm_compute; reflexivity|].
  eexists. split; [vm_compute; reflexivity|].
  repeat split; vm_compute; reflexivity.
Qed.

(** C7: when the embedding's length differs from the dimension the header
    declares, [insert] raises the dimension-mismatch error, whose message
    gives the expected and the given length, and the file system (so the
    file, its record count and its size) is unchanged. *)
Theorem insert_dimension_mismatch path fs n d emb meta rid rnd :
  get_header_info path fs = (Ok (n, d), fs) ->
  len emb <> d ->
  insert path emb meta rid rnd fs =
  (Raise (ValueError
     ("Embedding dimension mismatch. Expected " ++ fmt d
        ++ ", got " ++ fmt (len emb))%string), fs).
Proof.
  intros Hh Hne. rewrite get_header_info_eq in Hh.
  rewrite insert_content_eq.
  destruct (fs !! path) as [c|] eqn:E; [|discriminate].
  injection Hh as Hh. unfold insert_content. rewrite Hh.
  rewrite (bool_decide_eq_true_2 (len emb <> d)) by exact Hne.
  rewrite (insert_id fs path c E). reflexivity.
Qed.

Lemma insert_dimension_mismatch_example :
  insert "db.yavs" [S754_zero false] (MetaBytes []) None 0
         {["db.yavs" := header_bytes 0 2]}
  = (Raise (ValueError "Embedding dimension mismatch. Expected 2, got 1"),
     {["db.yavs" := header_bytes 0 2]}).
Proof.
  apply (insert_dimension_mismatch "db.yavs" {["db.yavs" := header_bytes 0 2]} 0 2).
  - vm_compute. reflexivity.
  - vm_compute. discriminate.
Defined.

(** C8: on a readable store and with an embedding of the declared length,
    an explicit [record_id] whose length is not 16 makes [insert] raise the
    record-id error (file untouched); with [record_id] absent and the rest
    of the call valid, [insert] returns, and the appended bytes (those
    from the old end of file on) start with the 16-byte identifier
    generated by [uuid4]. *)
Theorem insert_record_id path fs c n d emb meta rnd :
  fs !! path = Some c ->
  get_header_info path fs = (Ok (n, d), fs) ->
  len emb = d ->
  (forall r, length r <> 16%nat ->
     insert path emb meta (Some r) rnd fs
     = (Raise (ValueError "Record ID must be 16 bytes."), fs)) /\
  (forall eb mb,
     pack_floats emb = Ok eb ->
     0 <= meta_len meta < 2 ^ 32 -> meta_payload meta = Ok mb ->
     n + 1 < 2 ^ 64 ->
     exists c',
       insert path emb meta None rnd fs = (Ok tt, <[path := c']> fs) /\
       length (uuid4_bytes rnd) = 16%nat /\
       drop (length c) c'
       = uuid4_bytes rnd ++ eb ++ le_bytes 4 (meta_len meta) ++ mb /\
       take 16 (drop (length c) c') = uuid4_bytes rnd).
Proof.
  intros E Hh Hd. rewrite get_header_info_eq, E in Hh. injection Hh as Hh.
  split.
  - intros r Hr. rewrite insert_content_eq, E. unfold insert_content.
    rewrite Hh.
    rewrite (bool_decide_eq_false_2 (len emb <> d)) by (intros H; apply H; exact Hd).
    rewrite (bool_decide_eq_true_2 (len (chosen_id (Some r) rnd) <> 16))
      by (unfold len; simpl; lia).
    rewrite (insert_id fs path c E). reflexivity.
  - intros eb mb Ep Hm Emb Hn.
    pose proof (uuid4_bytes_length rnd) as Hu.
    eexists. split; [|split; [exact Hu|]].
    + rewrite insert_content_eq, E.
      rewrite (insert_content_valid_eq c emb meta None rnd n d eb mb) by assumption.
      reflexivity.
    + assert (Hdrop : drop (length c)
        (take 8 c ++ le_bytes 8 (n + 1) ++ drop 16 c
           ++ chosen_id None rnd ++ eb ++ le_bytes 4 (meta_len meta) ++ mb)
        = uuid4_bytes rnd ++ eb ++ le_bytes 4 (meta_len meta) ++ mb).
      { apply read_header_layout in Hh as (nb & db & rest & -> & Hnl & Hdl & _ & _).
        rewrite layout_take_8, layout_drop_16 by exact Hnl.
        rewrite !(app_assoc _ _ (chosen_id None rnd ++ _)).
        apply drop_app_length'.
        rewrite !length_app, !length_le_bytes, Hnl. reflexivity. }
      split; [exact Hdrop|]. rewrite Hdrop.
      apply take_app_length'. symmetry. exact Hu.
Qed.

Lemma insert_record_id_example :
  insert "db.yavs" [S754_zero false] (MetaBytes [x01]) (Some [x01; x02]) 7
         {["db.yavs" := header_bytes 0 1]}
  = (Raise (ValueError "Record ID must be 16 bytes."),
     {["db.yavs" := header_bytes 0 1]}) /\
  exists c',
    insert "db.yavs" [S754_zero false] (MetaBytes [x01]) None 7
           {["db.yavs" := header_bytes 0 1]}
    = (Ok tt, <["db.yavs" := c']> {["db.yavs" := header_bytes 0 1]}) /\
    length (uuid4_bytes 7) = 16%nat /\
    drop (length (header_bytes 0 1)) c'
    = uuid4_bytes 7 ++ le_bytes 4 0 ++ le_bytes 4 (meta_len (MetaBytes [x01])) ++ [x01] /\
    take 16 (drop (length (header_bytes 0 1)) c') = uuid4_bytes 7.
Proof.
  pose proof (insert_record_id "db.yavs" {["db.yavs" := header_bytes 0 1]}
                (header_bytes 0 1) 0 1 [S754_zero false] (MetaBytes [x01]) 7
                (lookup_singleton_eq _ _) eq_refl eq_refl) as [H1 H2].
  split.
  - apply (H1 [x01; x02]). simpl. lia.
  - apply (H2 (le_bytes 4 0) [x01]); [reflexivity | unfold meta_len, len; simpl; lia | reflexivity | reflexivity].
Defined.

(** C10: when [insert] fails a validation or cannot pack the embedding —
    the embedding's length is not the declared dimension, the record id is
    not 16 bytes long, or a value does not fit a 32-bit float — it raises
    and the file system is exactly what it was: these steps all come before
    the file is opened for writing. *)
Theorem insert_rejected_leaves_file path fs n d emb meta rid rnd :
  get_header_info path fs = (Ok (n, d), fs) ->
  len emb <> d \/
  length (chosen_id rid rnd) <> 16%nat \/
  (exists e, pack_floats emb = Raise e) ->
  exists e, insert path emb meta rid rnd fs = (Raise e, fs).
Proof.
  intros Hh Hbad. rewrite get_header_info_eq in Hh.
  rewrite insert_content_eq.
  destruct (fs !! path) as [c|] eqn:E; [|discriminate].
  injection Hh as Hh. pose proof (insert_id fs path c E) as Hid.
  unfold insert_content. rewrite Hh.
  destruct (bool_decide (len emb <> d)) eqn:Ed;
    [rewrite Hid; eexists; reflexivity|].
  apply bool_decide_eq_false in Ed. apply dec_stable in Ed.
  destruct (bool_decide (len (chosen_id rid rnd) <> 16)) eqn:Ei;
    [rewrite Hid; eexists; reflexivity|].
  apply bool_decide_eq_false in Ei. apply dec_stable in Ei.
  destruct Hbad as [Hbad | [Hbad | [e Hbad]]].
  - contradiction.
  - unfold len in Ei. lia.
  - rewrite Hbad, Hid. eexists; reflexivity.
Qed.

Lemma insert_rejected_leaves_file_example :
  exists e,
    insert "db.yavs" [S754_finite false 1 200] (MetaBytes []) None 0
           {["db.yavs" := header_bytes 0 1]}
    = (Raise e, {["db.yavs" := header_bytes 0 1]}).
Proof.
  apply (insert_rejected_leaves_file "db.yavs" {["db.yavs" := header_bytes 0 1]} 0 1).
  - vm_compute. reflexivity.
  - right. right. exists OverflowError. reflexivity.
Defined.

End Insert.

Section Sequences.

Implicit Types (fs : FS) (path : string) (c : list byte) (n d : Z).

(** C6: after [create] and [N] calls of [insert] that all return, on the
    same path, [get_header_info] reports a record count of [N] (and the
    dimension given to [create]). *)
Theorem record_count_after_inserts path d fs0 fs1 calls fs2 :
  create path d fs0 = (Ok tt, fs1) ->
  inserts_all_ok path calls fs1 = Some fs2 ->
  get_header_info path fs2 = (Ok (len calls, d), fs2).
Proof.
  intros Hc Hr. apply create_Ok_inv in Hc as [Hd ->].
  assert (Hh : get_header_info path (<[path := header_bytes 0 d]> fs0)
               = (Ok (0, d), <[path := header_bytes 0 d]> fs0)).
  { rewrite get_header_info_eq, lookup_insert_eq, read_header_fresh by lia. reflexivity. }
  exact (inserts_all_ok_header _ _ _ _ _ _ Hh Hr).
Qed.

Lemma record_count_after_two_inserts :
  let a1 := InsertArgs [S754_finite false 1 0; S754_finite true 5 (-1)]
                       (MetaBytes [x61; x62; x63]) None 11 in
  let a2 := InsertArgs [S754_zero false; S754_zero true]
                       (MetaStr (str_of "hi")) (Some (zeros 16)) 0 in
  let fs1 := snd (create "db.yavs" 2 ∅) in
  let fs2 := snd (insert_with "db.yavs" a2 (snd (insert_with "db.yavs" a1 fs1))) in
  get_header_info "db.yavs" fs2 = (Ok (2, 2), fs2).
Proof.
  cbv zeta.
  apply (record_count_after_inserts "db.yavs" 2 ∅
           (snd (create "db.yavs" 2 ∅))
           [InsertArgs [S754_finite false 1 0; S754_finite true 5 (-1)]
                       (MetaBytes [x61; x62; x63]) None 11;
            InsertArgs [S754_zero false; S754_zero true]
                       (MetaStr (str_of "hi")) (Some (zeros 16)) 0]).
  - vm_compute. reflexivity.
  - vm_compute. reflexivity.
Defined.

Lemma dimension_field_header n d :
  dimension_field (header_bytes n d) = le_bytes 4 d.
Proof.
  unfold dimension_field, header_bytes.
  rewrite layout_drop_16 by apply length_le_bytes.
  apply take_app_length'. rewrite length_le_bytes. reflexivity.
Qed.

Lemma dimension_field_layout c n d :
  read_header c = Ok (n, d) -> struct_unpack 4 (dimension_field c) = Ok d.
Proof.
  intros H. apply read_header_layout in H as (nb & db & rest & -> & Hnl & Hdl & _ & <-).
  unfold dimension_field. rewrite layout_drop_16 by exact Hnl.
  rewrite take_app_length' by done. apply struct_unpack_Ok. auto.
Qed.

(** C9: take the file as [create] left it ([c1]), as it is after any
    operations ([c2]) and after any further operations ([c3]).  The magic,
    version, dimension and reserved fields of [c3] are those of [c1]; the
    records present in [c2] are still in [c3], at the same place; and an
    [insert] that returns, made in the state of [c2], leaves the bytes
    before offset 8 and from offset 16 on as they were, sets the 8-byte
    count field to the count read before plus 1, and puts its new bytes at
    the end. *)
Theorem header_fields_never_change path d fs0 ops1 ops2 :
  let fs1 := snd (create path d fs0) in
  let fs2 := run_ops path ops1 fs1 in
  let fs3 := run_ops path ops2 fs2 in
  exists c1 c2 c3,
    fs1 !! path = Some c1 /\ fs2 !! path = Some c2 /\ fs3 !! path = Some c3 /\
    (magic_field c3 = magic_field c1 /\ version_field c3 = version_field c1 /\
     dimension_field c3 = dimension_field c1 /\
     reserved_field c3 = reserved_field c1) /\
    drop HEADER_SIZE c2 `prefix_of` drop HEADER_SIZE c3 /\
    (forall a fs',
       insert_with path a fs2 = (Ok tt, fs') ->
       exists n appended,
         get_header_info path fs2 = (Ok (n, d), fs2) /\
         fs' !! path
         = Some (take 8 c2 ++ le_bytes 8 (n + 1) ++ drop 16 c2 ++ appended) /\
         appended <> []).
Proof.
  cbv zeta. change HEADER_SIZE with 36%nat.
  destruct (decide (0 <= d < 2 ^ 32)) as [Hd|Hd].
  - rewrite create_eq by exact Hd. cbn [snd].
    set (c1 := header_bytes 0 d).
    assert (E1 : <[path := c1]> fs0 !! path = Some c1) by apply lookup_insert_eq.
    assert (L1 : length c1 = 36%nat) by reflexivity.
    destruct (run_ops_shape path ops1 _ _ E1) as (c2 & E2 & S2).
    apply shape_normal in S2 as (cnt2 & tail2 & Hc2 & Hs2); [|lia].
    destruct (patched_fields c1 cnt2 tail2 ltac:(lia) Hc2)
      as (Fm2 & Fv2 & _ & Fd2 & Fr2 & _ & L2).
    rewrite <- Hs2 in Fm2, Fv2, Fd2, Fr2, L2.
    destruct (run_ops_shape path ops2 _ _ E2) as (c3 & E3 & S3).
    apply shape_normal in S3 as (cnt3 & tail3 & Hc3 & Hs3); [|lia].
    destruct (patched_fields c2 cnt3 tail3 L2 Hc3)
      as (Fm3 & Fv3 & _ & Fd3 & Fr3 & Ft3 & _).
    rewrite <- Hs3 in Fm3, Fv3, Fd3, Fr3, Ft3.
    exists c1, c2, c3.
    split; [exact E1|]. split; [exact E2|]. split; [exact E3|].
    split; [repeat split; congruence|].
    split; [rewrite Ft3; apply prefix_app_r; reflexivity|].
    intros a fs' Hi.
    { unfold insert_with in Hi.
      rewrite insert_content_eq, E2 in Hi.
      destruct (insert_content c2 _ _ _ _) as [r c'] eqn:Ec.
      injection Hi as -> <-.
      apply insert_content_Ok in Ec
        as (n & d' & eb & mb & Hh & _ & Hid & _ & _ & _ & _ & ->).
      assert (d' = d) as ->.
      { pose proof (dimension_field_layout _ _ _ Hh) as Hf.
        rewrite Fd2 in Hf. unfold c1 in Hf. rewrite dimension_field_header in Hf.
        apply struct_unpack_Ok in Hf as [_ Hf].
        rewrite le_value_le_bytes in Hf; [congruence|].
        change (256 ^ Z.of_nat 4) with (2 ^ 32). exact Hd. }
      exists n, (chosen_id (arg_record_id a) (arg_rnd a) ++ eb
                 ++ le_bytes 4 (meta_len (arg_metadata a)) ++ mb).
      split; [rewrite get_header_info_eq, E2, Hh; reflexivity|].
      split; [apply lookup_insert_eq|].
      intros Hnil. apply (f_equal length) in Hnil.
      rewrite length_app, Hid in Hnil. simpl in Hnil. lia. }
  - rewrite create_out_of_range by exact Hd. cbn [snd].
    set (c1 := MAGIC ++ le_bytes 4 VERSION ++ le_bytes 8 0).
    assert (E1 : <[path := c1]> fs0 !! path = Some c1) by apply lookup_insert_eq.
    assert (L1 : length c1 = 16%nat) by reflexivity.
    destruct (run_ops_shape path ops1 _ _ E1) as (c2 & E2 & [-> | [Hl _]]); [|lia].
    destruct (run_ops_shape path ops2 _ _ E2) as (c3 & E3 & [-> | [Hl _]]); [|lia].
    exists c1, c1, c1.
    split; [exact E1|]. split; [exact E2|]. split; [exact E3|].
    split; [repeat split; reflexivity|].
    split; [reflexivity|].
    intros a fs' Hi. exfalso. unfold insert_with in Hi.
    rewrite insert_content_eq, E2 in Hi.
    destruct (insert_content c1 _ _ _ _) as [r c'] eqn:Ec.
    injection Hi as -> <-.
    apply insert_content_Ok in Ec as (n & d' & eb & mb & Hh & _).
    apply read_header_length in Hh. lia.
Qed.

(** The layout of a store of dimension 2 after one [insert] of [1.0, -2.5]
    with 3 bytes of metadata: 67 bytes, the two floats at offsets 52 and 56. *)
Example layout_dimension_2 :
  let fs1 := snd (create "db.yavs" 2 ∅) in
  let fs2 := snd (insert "db.yavs" [S754_finite false 1 0; S754_finite true 5 (-1)]
                         (MetaBytes [x61; x62; x63]) None 0 fs1) in
  exists c,
    fs2 !! "db.yavs" = Some c /\ length c = 67%nat /\
    take 4 (drop 52 c) = [x00; x00; x80; x3f] /\
    take 4 (drop 56 c) = [x00; x00; x20; xc0] /\
    drop 60 c = [x03; x00; x00; x00; x61; x62; x63].
Proof.
  cbv zeta. eexists. split; [vm_compute; reflexivity|].
  repeat split; vm_compute; reflexivity.
Qed.

End Sequences.

Section Driver.

Import Example.

(** C2 does not hold of [example.py]: the script calls [yavs.append], a name
    [yavs.py] does not define.  In every file system, with every embedding
    model, the run stops at the first such call with [AttributeError]:
    [insert] is never invoked and no record is written; the store is as
    [create] left it, or as it was found. *)
Theorem main_raises_attribute_error (encode : str -> list float) (rnd1 rnd2 : Z) (fs : FS) :
  main encode rnd1 rnd2 fs =
  (Raise (AttributeError "append"),
   if bool_decide (is_Some (fs !! fname)) then fs
   else <[fname := header_bytes 0 dimension]> fs).
Proof.
  unfold main. unfold bind at 1. unfold path_exists.
  destruct (bool_decide (is_Some (fs !! fname))); simpl negb; cbv iota.
  - reflexivity.
  - unfold bind at 1. rewrite create_eq by (unfold dimension; lia). reflexivity.
Qed.

End Driver.

(** ** Further facts used below *)

Section MoreFacts.

Implicit Types (fs : FS) (path : string) (c tail : list byte) (n d : Z).

Lemma pack_float_length x bs : pack_float x = Ok bs -> length bs = 4%nat.
Proof.
  unfold pack_float. intros H.
  destruct x; destruct (to_binary32 _); inversion H; reflexivity.
Qed.

Lemma pack_floats_length xs eb :
  pack_floats xs = Ok eb -> length eb = (4 * length xs)%nat.
Proof.
  revert eb. induction xs as [|x xs IH]; intros eb H; simpl in H.
  - injection H as <-. reflexivity.
  - destruct (pack_float x) as [bs|e] eqn:Ex; [|discriminate].
    destruct (pack_floats xs) as [r|e]; [|discriminate].
    injection H as <-. rewrite length_app, (pack_float_length _ _ Ex), (IH r eq_refl).
    simpl length. lia.
Qed.

Lemma read_header_app c tail n d :
  read_header c = Ok (n, d) -> read_header (c ++ tail) = Ok (n, d).
Proof.
  intros H. apply read_header_layout in H as (nb & db & rest & -> & Hnl & Hdl & Hn & Hd).
  apply read_header_layout. exists nb, db, (rest ++ tail).
  rewrite <- !app_assoc. auto.
Qed.

(** An [insert] that raises has at most appended bytes. *)
Lemma insert_content_Raise c emb meta rid rnd e c' :
  insert_content c emb meta rid rnd = (Raise e, c') -> exists tail, c' = c ++ tail.
Proof.
  unfold insert_content.
  destruct (read_header c) as [[n d]|e0];
    [|intros [= _ <-]; exists []; rewrite app_nil_r; reflexivity].
  destruct (bool_decide (len emb <> d));
    [intros [= _ <-]; exists []; rewrite app_nil_r; reflexivity|].
  destruct (bool_decide (len (chosen_id rid rnd) <> 16));
    [intros [= _ <-]; exists []; rewrite app_nil_r; reflexivity|].
  destruct (pack_floats emb) as [eb|e0];
    [|intros [= _ <-]; exists []; rewrite app_nil_r; reflexivity].
  destruct (struct_pack 4 (meta_len meta)) as [ml|e0]; [|intros [= _ <-]; eauto].
  destruct (meta_payload meta) as [mb|e0]; [|intros [= _ <-]; eauto].
  destruct (struct_pack 8 (n + 1)) as [cnt|e0]; [discriminate|intros [= _ <-]; eauto].
Qed.

Lemma take_drop_take {A} (l : list A) (i m k : nat) :
  (m + i <= k)%nat -> take i (drop m (take k l)) = take i (drop m l).
Proof.
  intros H. rewrite !take_drop_commute, take_take. f_equal. f_equal. lia.
Qed.

(** [read_header] in terms of the fields at their offsets. *)
Lemma read_header_fields c :
  read_header c =
  if bool_decide (magic_field c <> MAGIC) then Raise (ValueError bad_magic_msg)
  else match struct_unpack 4 (version_field c) with
       | Raise e => Raise e
       | Ok version =>
           if bool_decide (version <> VERSION)
           then Raise (ValueError (version_msg version))
           else match struct_unpack 8 (count_field c) with
                | Raise e => Raise e
                | Ok n =>
                    match struct_unpack 4 (dimension_field c) with
                    | Raise e => Raise e
                    | Ok d => Ok (n, d)
                    end
                end
       end.
Proof.
  unfold read_header, read, magic_field, version_field, count_field, dimension_field.
  rewrite !drop_drop. reflexivity.
Qed.

Lemma patched_length c cnt tail :
  (16 <= length c)%nat -> length cnt = 8%nat ->
  length (take 8 c ++ cnt ++ drop 16 c ++ tail) = (length c + length tail)%nat.
Proof.
  intros Hl Hc. rewrite !length_app, length_take, length_drop, Hc. lia.
Qed.

Lemma utf8_char_length cp bs :
  utf8_char cp = Ok bs -> (1 <= length bs <= 4)%nat.
Proof.
  unfold utf8_char. intros H.
  destruct (cp <? 128); [injection H as <-; simpl; lia|].
  destruct (cp <? 2048); [injection H as <-; simpl; lia|].
  destruct (cp <? 65536).
  - destruct ((55296 <=? cp) && (cp <=? 57343)); [discriminate|].
    injection H as <-; simpl; lia.
  - injection H as <-; simpl; lia.
Qed.

Lemma utf8_encode_length s bs :
  utf8_encode s = Ok bs -> len s <= len bs <= 4 * len s.
Proof.
  revert bs. induction s as [|cp s IH]; intros bs H; simpl in H.
  - injection H as <-. unfold len. simpl. lia.
  - destruct (utf8_char cp) as [b|e] eqn:Ec; [|discriminate].
    destruct (utf8_encode s) as [r|e]; [|discriminate].
    injection H as <-. specialize (IH r eq_refl).
    apply utf8_char_length in Ec. unfold len in *.
    rewrite length_app. simpl length. lia.
Qed.

Lemma utf8_encode_ascii s :
  is_ascii s -> utf8_encode s = Ok (map byte_of_Z s).
Proof.
  unfold is_ascii. induction 1 as [|cp s Hcp Hs IH]; [reflexivity|].
  simpl. unfold utf8_char.
  destruct (cp <? 128) eqn:E; [|lia].
  rewrite IH. reflexivity.
Qed.

End MoreFacts.

(** ** Further properties of [create] and [get_header_info] *)

Section CreateMore.

Implicit Types (fs : FS) (path q : string) (c : list byte) (n d : Z).



(** X2: [create] opens the file for truncating write: what the path held
    before has no influence on the outcome. *)
Theorem create_discards_previous_content path d fs c :
  create path d (<[path := c]> fs) = create path d fs.
Proof.
  destruct (decide (0 <= d < 2 ^ 32)) as [Hd|Hd].
  - rewrite !create_eq by exact Hd. rewrite insert_insert_eq. reflexivity.
  - rewrite !create_out_of_range by exact Hd. rewrite insert_insert_eq. reflexivity.
Qed.

(** X3: a dimension outside the unsigned 32-bit range makes [create] raise
    [struct.error] only after the file was truncated and the magic, version
    and count were written: the path then holds those 16 bytes, whatever it
    held before, and [get_header_info] on it raises [struct.error] too. *)
Theorem create_out_of_range_leaves_stub path d fs :
  ~ (0 <= d < 2 ^ 32) ->
  exists fs',
    create path d fs = (Raise struct_error, fs') /\
    fs' !! path = Some (MAGIC ++ le_bytes 4 VERSION ++ le_bytes 8 0) /\
    get_header_info path fs' = (Raise struct_error, fs').
Proof.
  intros Hd. eexists. split; [apply create_out_of_range; exact Hd|].
  split; [apply lookup_insert_eq|].
  rewrite get_header_info_eq, lookup_insert_eq. reflexivity.
Qed.

Lemma create_out_of_range_leaves_stub_example :
  exists fs',
    create "db.yavs" (-5) {["db.yavs" := header_bytes 7 3 ++ [x01]]}
    = (Raise struct_error, fs') /\
    fs' !! "db.yavs" = Some (MAGIC ++ le_bytes 4 VERSION ++ le_bytes 8 0) /\
    get_header_info "db.yavs" fs' = (Raise struct_error, fs').
Proof. apply create_out_of_range_leaves_stub. lia. Defined.

End CreateMore.

Section GetHeaderInfoMore.

Implicit Types (fs : FS) (path : string) (c : list byte) (n d : Z).

(** X4: [get_header_info] returns [(n, d)] exactly when the file exists,
    starts with the magic, holds version 1 in bytes 4..8, and [n] and [d]
    are the little-endian values of bytes 8..16 and 16..20; the values it
    returns are within the unsigned 64-bit and 32-bit ranges. *)
Theorem get_header_info_returns_iff path fs n d :
  (get_header_info path fs = (Ok (n, d), fs) <->
   exists c,
     fs !! path = Some c /\
     magic_field c = MAGIC /\
     struct_unpack 4 (version_field c) = Ok 1 /\
     struct_unpack 8 (count_field c) = Ok n /\
     struct_unpack 4 (dimension_field c) = Ok d) /\
  (get_header_info path fs = (Ok (n, d), fs) ->
   0 <= n < 2 ^ 64 /\ 0 <= d < 2 ^ 32).
Proof.
  rewrite get_header_info_eq. split; [split|].
  - destruct (fs !! path) as [c|]; [|discriminate].
    intros [= H]. exists c. split; [reflexivity|].
    rewrite read_header_fields in H.
    destruct (bool_decide (magic_field c <> MAGIC)) eqn:Em; [discriminate|].
    apply bool_decide_eq_false in Em. apply dec_stable in Em.
    destruct (struct_unpack 4 (version_field c)) as [v|e]; [|discriminate].
    destruct (bool_decide (v <> VERSION)) eqn:Ev; [discriminate|].
    apply bool_decide_eq_false in Ev. apply dec_stable in Ev. subst v.
    destruct (struct_unpack 8 (count_field c)) as [n'|e]; [|discriminate].
    destruct (struct_unpack 4 (dimension_field c)) as [d'|e]; [|discriminate].
    injection H as -> ->. auto.
  - intros (c & -> & Hm & Hv & Hn & Hd). f_equal.
    rewrite read_header_fields, Hv, Hn, Hd.
    rewrite (bool_decide_eq_false_2 (magic_field c <> MAGIC))
      by (intros H; apply H; exact Hm).
    rewrite (bool_decide_eq_false_2 (1 <> VERSION)) by (intros H; apply H; reflexivity).
    reflexivity.
  - destruct (fs !! path) as [c|]; [|discriminate].
    intros [= H]. eapply read_header_range. exact H.
Qed.

(** X5: [get_header_info] reads the first 20 bytes only: the reserved
    region and the records have no influence on what it returns or raises. *)
Theorem get_header_info_reads_20_bytes path1 fs1 c1 path2 fs2 c2 :
  fs1 !! path1 = Some c1 -> fs2 !! path2 = Some c2 ->
  take 20 c1 = take 20 c2 ->
  fst (get_header_info path1 fs1) = fst (get_header_info path2 fs2).
Proof.
  intros E1 E2 H. rewrite !get_header_info_eq, E1, E2. simpl.
  assert (Hr : forall c, read_header c = read_header (take 20 c)).
  { intros c. rewrite !read_header_fields.
    unfold magic_field, version_field, count_field, dimension_field.
    rewrite take_take, !take_drop_take by lia. reflexivity. }
  rewrite (Hr c1), (Hr c2), H. reflexivity.
Qed.

Lemma get_header_info_reads_20_bytes_example :
  fst (get_header_info "a"
         {["a" := MAGIC ++ le_bytes 4 1 ++ le_bytes 8 5 ++ le_bytes 4 3]})
  = fst (get_header_info "b" {["b" := header_bytes 5 3 ++ [xff; xff]]}).
Proof.
  apply (get_header_info_reads_20_bytes
           "a" _ (MAGIC ++ le_bytes 4 1 ++ le_bytes 8 5 ++ le_bytes 4 3)
           "b" _ (header_bytes 5 3 ++ [xff; xff])).
  - apply lookup_singleton_eq.
  - apply lookup_singleton_eq.
  - reflexivity.
Defined.

(** X6: on a file cut short, [get_header_info] raises: the invalid-format
    error when fewer than 4 bytes are there (an empty file included), and
    [struct.error] when the magic is right but the version field, or after
    a right version the count or dimension field, is incomplete. *)
Theorem get_header_info_truncated path fs c :
  fs !! path = Some c ->
  ((length c < 4)%nat ->
   get_header_info path fs = (Raise (ValueError "Not a valid YAVS file."), fs)) /\
  (magic_field c = MAGIC -> (length c < 8)%nat ->
   get_header_info path fs = (Raise struct_error, fs)) /\
  (magic_field c = MAGIC -> struct_unpack 4 (version_field c) = Ok 1 ->
   (length c < 20)%nat ->
   get_header_info path fs = (Raise struct_error, fs)).
Proof.
  intros E. rewrite get_header_info_eq, E, read_header_fields.
  split; [|split].
  - intros Hl.
    rewrite (bool_decide_eq_true_2 (magic_field c <> MAGIC)); [reflexivity|].
    intros Hm. apply (f_equal length) in Hm. unfold magic_field in Hm.
    rewrite length_take in Hm. change (length MAGIC) with 4%nat in Hm. lia.
  - intros Hm Hl.
    rewrite (bool_decide_eq_false_2 (magic_field c <> MAGIC))
      by (intros H; apply H; exact Hm).
    destruct (struct_unpack 4 (version_field c)) as [v|e] eqn:Ev.
    + apply struct_unpack_Ok in Ev as [Hv _]. unfold version_field in Hv.
      rewrite length_take, length_drop in Hv. lia.
    + unfold struct_unpack in Ev. destruct (unpack_uint 4 _); [discriminate|].
      injection Ev as <-. reflexivity.
  - intros Hm Hv Hl.
    rewrite (bool_decide_eq_false_2 (magic_field c <> MAGIC))
      by (intros H; apply H; exact Hm).
    rewrite Hv.
    rewrite (bool_decide_eq_false_2 (1 <> VERSION)) by (intros H; apply H; reflexivity).
    destruct (struct_unpack 8 (count_field c)) as [n|e] eqn:En.
    + destruct (struct_unpack 4 (dimension_field c)) as [d|e] eqn:Ed.
      * apply struct_unpack_Ok in Ed as [Hd _]. unfold dimension_field in Hd.
        rewrite length_take, length_drop in Hd. lia.
      * unfold struct_unpack in Ed. destruct (unpack_uint 4 _); [discriminate|].
        injection Ed as <-. reflexivity.
    + unfold struct_unpack in En. destruct (unpack_uint 8 _); [discriminate|].
      injection En as <-. reflexivity.
Qed.

Lemma get_header_info_truncated_examples :
  get_header_info "e" {["e" := []]}
  = (Raise (ValueError "Not a valid YAVS file."), {["e" := []]}) /\
  get_header_info "m" {["m" := MAGIC ++ [x01]]}
  = (Raise struct_error, {["m" := MAGIC ++ [x01]]}) /\
  get_header_info "v" {["v" := MAGIC ++ le_bytes 4 1 ++ le_bytes 8 0]}
  = (Raise struct_error, {["v" := MAGIC ++ le_bytes 4 1 ++ le_bytes 8 0]}).
Proof.
  split; [|split].
  - refine (proj1 (get_header_info_truncated "e" {["e" := []]} [] _) _).
    + apply lookup_singleton_eq.
    + simpl. lia.
  - refine (proj1 (proj2 (get_header_info_truncated "m" {["m" := MAGIC ++ [x01]]}
                            (MAGIC ++ [x01]) _)) _ _).
    + apply lookup_singleton_eq.
    + reflexivity.
    + simpl. lia.
  - refine (proj2 (proj2 (get_header_info_truncated "v"
                            {["v" := MAGIC ++ le_bytes 4 1 ++ le_bytes 8 0]}
                            (MAGIC ++ le_bytes 4 1 ++ le_bytes 8 0) _)) _ _ _).
    + apply lookup_singleton_eq.
    + reflexivity.
    + reflexivity.
    + simpl. lia.
Defined.

End GetHeaderInfoMore.

(** ** Further properties of [insert] *)

Section InsertMore.

Implicit Types (fs : FS) (path : string) (c : list byte) (n d : Z).

(** X7: [insert] reads the header before anything else: on a missing file
    it raises [FileNotFoundError] without creating it (although it would
    later open the path in append mode), and whatever [get_header_info]
    raises on the file, [insert] raises the same and writes nothing. *)
Theorem insert_needs_readable_header path fs emb meta rid rnd :
  (fs !! path = None ->
   insert path emb meta rid rnd fs = (Raise FileNotFoundError, fs)) /\
  (forall e,
     fst (get_header_info path fs) = Raise e ->
     insert path emb meta rid rnd fs = (Raise e, fs)).
Proof.
  split.
  - intros E. rewrite insert_content_eq, E. reflexivity.
  - intros e. rewrite get_header_info_eq, insert_content_eq.
    destruct (fs !! path) as [c|] eqn:E; simpl.
    + intros H. unfold insert_content. rewrite H.
      rewrite (insert_id fs path c E). reflexivity.
    + intros [= <-]. reflexivity.
Qed.

(** X8: [insert] returns exactly when the header is readable as [(n, d)],
    the embedding has [d] values that all fit a 32-bit float, the record
    id (given or generated) has 16 bytes, the metadata length fits 32 bits,
    the metadata is bytes or encodable text, and [n + 1] fits 64 bits. *)
Theorem insert_returns_iff path fs emb meta rid rnd :
  fst (insert path emb meta rid rnd fs) = Ok tt <->
  exists n d,
    get_header_info path fs = (Ok (n, d), fs) /\
    len emb = d /\
    length (chosen_id rid rnd) = 16%nat /\
    (exists eb, pack_floats emb = Ok eb) /\
    meta_len meta < 2 ^ 32 /\
    (exists mb, meta_payload meta = Ok mb) /\
    n + 1 < 2 ^ 64.
Proof.
  rewrite insert_content_eq, get_header_info_eq.
  destruct (fs !! path) as [c|] eqn:E.
  - split.
    + destruct (insert_content c emb meta rid rnd) as [r c'] eqn:Ec. simpl.
      intros ->. apply insert_content_Ok in Ec
        as (n & d & eb & mb & Hh & Hd & Hi & Hp & Hm & Hmb & Hn & _).
      exists n, d. rewrite Hh. repeat split; eauto; lia.
    + intros (n & d & [= Hh] & Hd & Hi & [eb Hp] & Hm & [mb Hmb] & Hn).
      pose proof (insert_content_valid c emb meta rid rnd n d eb mb Hh Hd Hi Hp) as Hv.
      destruct (insert_content c emb meta rid rnd) as [r c']. simpl in *.
      apply Hv; [|exact Hmb|exact Hn].
      split; [|exact Hm]. unfold meta_len, len. destruct meta; lia.
  - split; [discriminate|]. intros (n & d & H & _). discriminate.
Qed.

(** The record a returning [insert] leaves at the old end of the file. *)
Lemma insert_Ok_record path fs c emb meta rid rnd fs' :
  fs !! path = Some c ->
  insert path emb meta rid rnd fs = (Ok tt, fs') ->
  exists c' eb mb,
    fs' !! path = Some c' /\
    pack_floats emb = Ok eb /\ meta_payload meta = Ok mb /\
    0 <= meta_len meta < 2 ^ 32 /\
    length (chosen_id rid rnd) = 16%nat /\
    drop (length c) c'
    = chosen_id rid rnd ++ eb ++ le_bytes 4 (meta_len meta) ++ mb /\
    length c' = (length c + (16 + (4 * length emb + (4 + length mb))))%nat.
Proof.
  intros E Hi. rewrite insert_content_eq, E in Hi.
  destruct (insert_content c emb meta rid rnd) as [r c'] eqn:Ec.
  injection Hi as -> <-.
  apply insert_content_Ok in Ec
    as (n & d & eb & mb & Hh & _ & Hid & Hp & Hm & Hmb & _ & ->).
  eexists _, eb, mb. split; [apply lookup_insert_eq|].
  do 4 (split; [assumption|]).
  pose proof (read_header_length _ _ _ Hh) as Hl.
  assert (Hpl : length (take 8 c ++ le_bytes 8 (n + 1) ++ drop 16 c) = length c).
  { rewrite !length_app, length_take, length_drop, length_le_bytes. lia. }
  split.
  - rewrite !(app_assoc _ _ (chosen_id rid rnd ++ _)).
    apply drop_app_length'. symmetry. exact Hpl.
  - rewrite !(app_assoc _ _ (chosen_id rid rnd ++ _)), length_app.
    rewrite Hpl.
    rewrite !length_app, Hid, (pack_floats_length _ _ Hp), length_le_bytes. lia.
Qed.

(** X9: a returning [insert] makes the file longer by exactly one record:
    16 bytes of identifier, 4 bytes per embedding value, 4 bytes of length
    field, and the metadata payload. *)
Theorem insert_grows_by_one_record path fs c emb meta rid rnd fs' :
  fs !! path = Some c ->
  insert path emb meta rid rnd fs = (Ok tt, fs') ->
  exists c' mb,
    fs' !! path = Some c' /\
    meta_payload meta = Ok mb /\
    len c' = len c + 16 + 4 * len emb + 4 + len mb.
Proof.
  intros E Hi.
  destruct (insert_Ok_record _ _ _ _ _ _ _ _ E Hi)
    as (c' & eb & mb & E' & _ & Hmb & _ & _ & _ & Hl).
  exists c', mb. split; [exact E'|]. split; [exact Hmb|].
  unfold len. rewrite Hl. lia.
Qed.

Lemma insert_grows_by_one_record_example :
  let fs := {["db.yavs" := header_bytes 0 2]} : FS in
  exists c' mb,
    snd (insert "db.yavs" [S754_zero false; S754_finite false 1 0]
           (MetaStr [233]) None 3 fs) !! "db.yavs" = Some c' /\
    meta_payload (MetaStr [233]) = Ok mb /\
    len c' = len (header_bytes 0 2) + 16
             + 4 * len [S754_zero false; S754_finite false 1 0] + 4 + len mb.
Proof.
  cbv zeta.
  apply (insert_grows_by_one_record "db.yavs" {["db.yavs" := header_bytes 0 2]}
           (header_bytes 0 2) [S754_zero false; S754_finite false 1 0]
           (MetaStr [233]) None 3).
  - apply lookup_singleton_eq.
  - vm_compute. reflexivity.
Defined.

(** X10: with metadata given as bytes, the record a returning [insert]
    leaves can be read back from the old end of the file: the identifier,
    the packed embedding, a length field whose value is the number of
    payload bytes, then the payload, which ends the file. *)
Theorem insert_bytes_record_reads_back path fs c emb b rid rnd fs' :
  fs !! path = Some c ->
  insert path emb (MetaBytes b) rid rnd fs = (Ok tt, fs') ->
  exists c' rest,
    fs' !! path = Some c' /\
    drop (length c) c' = chosen_id rid rnd ++ rest /\
    length (chosen_id rid rnd) = 16%nat /\
    pack_floats emb = Ok (take (4 * length emb) rest) /\
    struct_unpack 4 (take 4 (drop (4 * length emb) rest)) = Ok (len b) /\
    drop (4 * length emb + 4) rest = b.
Proof.
  intros E Hi.
  destruct (insert_Ok_record _ _ _ _ _ _ _ _ E Hi)
    as (c' & eb & mb & E' & Hp & Hmb & Hm & Hid & Hd & _).
  simpl in Hmb. injection Hmb as <-. simpl in Hm, Hd.
  pose proof (pack_floats_length _ _ Hp) as Hel.
  exists c', (eb ++ le_bytes 4 (len b) ++ b).
  split; [exact E'|]. split; [exact Hd|]. split; [exact Hid|].
  split; [|split].
  - rewrite take_app_length' by done. exact Hp.
  - rewrite drop_app_length' by done.
    rewrite take_app_length' by (rewrite length_le_bytes; reflexivity).
    apply struct_unpack_Ok. split; [apply length_le_bytes|].
    apply le_value_le_bytes. change (256 ^ Z.of_nat 4) with (2 ^ 32). exact Hm.
  - rewrite drop_app_add' by done.
    apply drop_app_length'. rewrite length_le_bytes. reflexivity.
Qed.

Lemma insert_bytes_record_reads_back_example :
  let fs := {["db.yavs" := header_bytes 0 1]} : FS in
  exists c' rest,
    snd (insert "db.yavs" [S754_finite true 5 (-1)] (MetaBytes [x61; x62])
           (Some (zeros 16)) 0 fs) !! "db.yavs" = Some c' /\
    drop (length (header_bytes 0 1)) c' = chosen_id (Some (zeros 16)) 0 ++ rest /\
    length (chosen_id (Some (zeros 16)) 0) = 16%nat /\
    pack_floats [S754_finite true 5 (-1)] = Ok (take (4 * 1) rest) /\
    struct_unpack 4 (take 4 (drop (4 * 1) rest)) = Ok (len [x61; x62]) /\
    drop (4 * 1 + 4) rest = [x61; x62].
Proof.
  cbv zeta.
  apply (insert_bytes_record_reads_back "db.yavs" {["db.yavs" := header_bytes 0 1]}
           (header_bytes 0 1) [S754_finite true 5 (-1)] [x61; x62] (Some (zeros 16)) 0).
  - apply lookup_singleton_eq.
  - vm_compute. reflexivity.
Defined.

(** X11: text metadata made of ASCII characters only is handled exactly as
    the bytes of those characters: same outcome, same file. *)
Theorem insert_ascii_text_as_bytes path fs emb s rid rnd :
  is_ascii s ->
  insert path emb (MetaStr s) rid rnd fs
  = insert path emb (MetaBytes (map byte_of_Z s)) rid rnd fs.
Proof.
  intros Hs. rewrite !insert_content_eq.
  destruct (fs !! path) as [c|]; [|reflexivity].
  unfold insert_content. simpl meta_len. simpl meta_payload.
  rewrite (utf8_encode_ascii s Hs).
  unfold len. rewrite length_map. reflexivity.
Qed.

Lemma insert_ascii_text_as_bytes_example :
  insert "db.yavs" [] (MetaStr (str_of "hi")) None 0 {["db.yavs" := header_bytes 0 0]}
  = insert "db.yavs" [] (MetaBytes (map byte_of_Z (str_of "hi"))) None 0
           {["db.yavs" := header_bytes 0 0]}.
Proof.
  apply insert_ascii_text_as_bytes.
  repeat constructor; simpl; lia.
Defined.

(** X12: with text metadata, the length field a returning [insert] writes
    is the number of characters; the payload written after it has at least
    that many bytes and at most four times as many. *)
Theorem insert_text_length_field_bounds path fs c emb s rid rnd fs' :
  fs !! path = Some c ->
  insert path emb (MetaStr s) rid rnd fs = (Ok tt, fs') ->
  exists c',
    fs' !! path = Some c' /\
    struct_unpack 4 (take 4 (drop (length c + 16 + 4 * length emb) c')) = Ok (len s) /\
    utf8_encode s = Ok (drop (length c + 16 + 4 * length emb + 4) c') /\
    len s <= len (drop (length c + 16 + 4 * length emb + 4) c') <= 4 * len s.
Proof.
  intros E Hi.
  destruct (insert_Ok_record _ _ _ _ _ _ _ _ E Hi)
    as (c' & eb & mb & E' & Hp & Hmb & Hm & Hid & Hd & _).
  simpl in Hmb, Hm, Hd.
  pose proof (pack_floats_length _ _ Hp) as Hel.
  exists c'. split; [exact E'|].
  assert (H1 : drop (length c + 16 + 4 * length emb) c' = le_bytes 4 (len s) ++ mb).
  { rewrite <- !drop_drop, Hd.
    rewrite drop_app_length' by done. apply drop_app_length'. done. }
  assert (H2 : drop (length c + 16 + 4 * length emb + 4) c' = mb).
  { rewrite <- (drop_drop _ 4), H1.
    apply drop_app_length'. rewrite length_le_bytes. reflexivity. }
  rewrite H1, H2. split; [|split].
  - rewrite take_app_length' by (rewrite length_le_bytes; reflexivity).
    apply struct_unpack_Ok. split; [apply length_le_bytes|].
    apply le_value_le_bytes. change (256 ^ Z.of_nat 4) with (2 ^ 32). exact Hm.
  - exact Hmb.
  - apply utf8_encode_length. exact Hmb.
Qed.

Lemma insert_text_length_field_bounds_example :
  let fs := {["db.yavs" := header_bytes 0 0]} : FS in
  let c := header_bytes 0 0 in
  let s := [0x20AC; 0x41] in
  exists c',
    snd (insert "db.yavs" [] (MetaStr s) None 0 fs) !! "db.yavs" = Some c' /\
    struct_unpack 4 (take 4 (drop (length c + 16 + 4 * 0) c')) = Ok (len s) /\
    utf8_encode s = Ok (drop (length c + 16 + 4 * 0 + 4) c') /\
    len s <= len (drop (length c + 16 + 4 * 0 + 4) c') <= 4 * len s.
Proof.
  cbv zeta.
  apply (insert_text_length_field_bounds "db.yavs" {["db.yavs" := header_bytes 0 0]}
           (header_bytes 0 0) [] [0x20AC; 0x41] None 0).
  - apply lookup_singleton_eq.
  - vm_compute. reflexivity.
Defined.

End InsertMore.

(** ** Failures after the append, and whole runs *)

Section RunsMore.

Implicit Types (fs : FS) (path : string) (c : list byte) (n d : Z).

(** X13: when the text metadata cannot be encoded (a lone surrogate), an
    otherwise valid [insert] raises the encoder's error after the
    identifier, the embedding and the length field were appended: the file
    keeps those bytes, and the header still reports the count it had. *)
Theorem insert_encode_failure_leaves_partial_record
    path fs c n d emb s rid rnd eb e :
  fs !! path = Some c ->
  get_header_info path fs = (Ok (n, d), fs) ->
  len emb = d ->
  length (chosen_id rid rnd) = 16%nat ->
  pack_floats emb = Ok eb ->
  len s < 2 ^ 32 ->
  utf8_encode s = Raise e ->
  exists fs',
    insert path emb (MetaStr s) rid rnd fs = (Raise e, fs') /\
    fs' !! path = Some (c ++ chosen_id rid rnd ++ eb ++ le_bytes 4 (len s)) /\
    get_header_info path fs' = (Ok (n, d), fs').
Proof.
  intros E Hh Hd Hid Hp Hm He.
  rewrite get_header_info_eq, E in Hh. injection Hh as Hh.
  eexists. split; [|split].
  - rewrite insert_content_eq, E. unfold insert_content. rewrite Hh.
    rewrite (bool_decide_eq_false_2 (len emb <> d)) by (intros H; apply H; exact Hd).
    rewrite (bool_decide_eq_false_2 (len (chosen_id rid rnd) <> 16))
      by (intros H; apply H; unfold len; lia).
    rewrite Hp. simpl meta_len. simpl meta_payload.
    assert (Hml : 0 <= len s < 256 ^ Z.of_nat 4)
      by (change (256 ^ Z.of_nat 4) with (2 ^ 32); unfold len in *; lia).
    rewrite (proj2 (struct_pack_Ok 4 (len s) _) (conj Hml eq_refl)).
    rewrite He. reflexivity.
  - apply lookup_insert_eq.
  - rewrite get_header_info_eq, lookup_insert_eq.
    rewrite (read_header_app _ _ _ _ Hh). reflexivity.
Qed.

Lemma insert_encode_failure_leaves_partial_record_example :
  exists fs',
    insert "db.yavs" [S754_zero false] (MetaStr [0xD800]) (Some (zeros 16)) 0
           {["db.yavs" := header_bytes 4 1]}
    = (Raise UnicodeEncodeError, fs') /\
    fs' !! "db.yavs"
    = Some (header_bytes 4 1 ++ chosen_id (Some (zeros 16)) 0 ++ le_bytes 4 0
              ++ le_bytes 4 (len [0xD800])) /\
    get_header_info "db.yavs" fs' = (Ok (4, 1), fs').
Proof.
  apply (insert_encode_failure_leaves_partial_record "db.yavs"
           {["db.yavs" := header_bytes 4 1]} (header_bytes 4 1) 4 1
           [S754_zero false] [0xD800] (Some (zeros 16)) 0 (le_bytes 4 0)
           UnicodeEncodeError).
  - apply lookup_singleton_eq.
  - vm_compute. reflexivity.
  - reflexivity.
  - reflexivity.
  - reflexivity.
  - unfold len. simpl. lia.
  - reflexivity.
Defined.

(** X14: when the header's count is at its maximum, [2 ^ 64 - 1], an
    otherwise valid [insert] appends its whole record and then raises
    [struct.error] while packing the new count: the record is in the file
    and the header still reports the old count. *)
Theorem insert_count_overflow_leaves_record
    path fs c d emb meta rid rnd eb mb :
  fs !! path = Some c ->
  get_header_info path fs = (Ok (2 ^ 64 - 1, d), fs) ->
  len emb = d ->
  length (chosen_id rid rnd) = 16%nat ->
  pack_floats emb = Ok eb ->
  meta_len meta < 2 ^ 32 ->
  meta_payload meta = Ok mb ->
  exists fs',
    insert path emb meta rid rnd fs = (Raise struct_error, fs') /\
    fs' !! path
    = Some (c ++ chosen_id rid rnd ++ eb ++ le_bytes 4 (meta_len meta) ++ mb) /\
    get_header_info path fs' = (Ok (2 ^ 64 - 1, d), fs').
Proof.
  intros E Hh Hd Hid Hp Hm Hmb.
  rewrite get_header_info_eq, E in Hh. injection Hh as Hh.
  eexists. split; [|split].
  - rewrite insert_content_eq, E. unfold insert_content. rewrite Hh.
    rewrite (bool_decide_eq_false_2 (len emb <> d)) by (intros H; apply H; exact Hd).
    rewrite (bool_decide_eq_false_2 (len (chosen_id rid rnd) <> 16))
      by (intros H; apply H; unfold len; lia).
    rewrite Hp.
    assert (Hml : 0 <= meta_len meta < 256 ^ Z.of_nat 4).
    { change (256 ^ Z.of_nat 4) with (2 ^ 32).
      split; [|exact Hm]. unfold meta_len, len. destruct meta; lia. }
    rewrite (proj2 (struct_pack_Ok 4 (meta_len meta) _) (conj Hml eq_refl)).
    rewrite Hmb.
    replace (2 ^ 64 - 1 + 1) with (2 ^ 64) by lia.
    reflexivity.
  - apply lookup_insert_eq.
  - rewrite get_header_info_eq, lookup_insert_eq.
    rewrite (read_header_app _ _ _ _ Hh). reflexivity.
Qed.

Lemma insert_count_overflow_leaves_record_example :
  exists fs',
    insert "db.yavs" [] (MetaBytes [x01]) (Some (zeros 16)) 0
           {["db.yavs" := header_bytes (2 ^ 64 - 1) 0]}
    = (Raise struct_error, fs') /\
    fs' !! "db.yavs"
    = Some (header_bytes (2 ^ 64 - 1) 0 ++ chosen_id (Some (zeros 16)) 0 ++ []
              ++ le_bytes 4 (meta_len (MetaBytes [x01])) ++ [x01]) /\
    get_header_info "db.yavs" fs' = (Ok (2 ^ 64 - 1, 0), fs').
Proof.
  apply (insert_count_overflow_leaves_record "db.yavs"
           {["db.yavs" := header_bytes (2 ^ 64 - 1) 0]}
           (header_bytes (2 ^ 64 - 1) 0) 0 [] (MetaBytes [x01])
           (Some (zeros 16)) 0 [] [x01]).
  - apply lookup_singleton_eq.
  - vm_compute. reflexivity.
  - reflexivity.
  - reflexivity.
  - reflexivity.
  - unfold meta_len, len. simpl. lia.
  - reflexivity.
Defined.

(** One operation on a readable store: the count goes up by one when it is
    an [insert] that returns, and stays otherwise; the dimension stays. *)
Lemma run_op_header path o fs n d :
  get_header_info path fs = (Ok (n, d), fs) ->
  get_header_info path (run_op path o fs)
  = (Ok (n + Z.of_nat (inserts_returned path [o] fs), d), run_op path o fs).
Proof.
  intros Hh. destruct o as [a|]; simpl.
  - destruct (insert_with path a fs) as [[[]|e] fs'] eqn:Ei; simpl.
    + rewrite (insert_Ok_header _ _ _ _ _ _ Hh Ei). reflexivity.
    + rewrite Z.add_0_r. unfold insert_with in Ei.
      rewrite insert_content_eq in Ei. rewrite get_header_info_eq in Hh.
      destruct (fs !! path) as [c|] eqn:E; [|discriminate].
      injection Hh as Hh.
      destruct (insert_content c _ _ _ _) as [r c'] eqn:Ec.
      injection Ei as -> <-.
      apply insert_content_Raise in Ec as [tail ->].
      rewrite get_header_info_eq, lookup_insert_eq.
      rewrite (read_header_app _ _ _ _ Hh). reflexivity.
  - rewrite get_header_info_state, Z.add_0_r. exact Hh.
Qed.

(** X15: after [create], whatever [insert] and [get_header_info] calls are
    made on the store, returning or raising, the header reports as record
    count the number of [insert] calls that returned, and the dimension
    given to [create]. *)
Theorem record_count_is_inserts_returned path d fs0 fs1 ops :
  create path d fs0 = (Ok tt, fs1) ->
  get_header_info path (run_ops path ops fs1)
  = (Ok (Z.of_nat (inserts_returned path ops fs1), d), run_ops path ops fs1).
Proof.
  intros Hc. apply create_Ok_inv in Hc as [Hd ->].
  assert (Hh : get_header_info path (<[path := header_bytes 0 d]> fs0)
               = (Ok (0, d), <[path := header_bytes 0 d]> fs0)).
  { rewrite get_header_info_eq, lookup_insert_eq, read_header_fresh by lia. reflexivity. }
  revert Hh. generalize (<[path := header_bytes 0 d]> fs0) as fs.
  assert (Hgen : forall ops fs n,
    get_header_info path fs = (Ok (n, d), fs) ->
    get_header_info path (run_ops path ops fs)
    = (Ok (n + Z.of_nat (inserts_returned path ops fs), d), run_ops path ops fs)).
  { clear. induction ops as [|o ops IH]; intros fs n Hh.
    - simpl. rewrite Z.add_0_r. exact Hh.
    - pose proof (run_op_header path o fs n d Hh) as H1.
      specialize (IH _ _ H1).
      change (run_ops path (o :: ops) fs) with (run_ops path ops (run_op path o fs)).
      rewrite IH. f_equal. f_equal. f_equal.
      simpl inserts_returned. lia. }
  intros fs Hh. rewrite (Hgen ops fs 0 Hh). reflexivity.
Qed.

Lemma record_count_is_inserts_returned_example :
  let ok := InsertArgs [S754_zero false] (MetaBytes [x01]) None 5 in
  let bad := InsertArgs [] (MetaBytes []) None 6 in
  let ops := [OpInsert ok; OpInsert bad; OpGetHeaderInfo; OpInsert ok] in
  let fs1 := snd (create "db.yavs" 1 ∅) in
  get_header_info "db.yavs" (run_ops "db.yavs" ops fs1)
  = (Ok (Z.of_nat (inserts_returned "db.yavs" ops fs1), 1),
     run_ops "db.yavs" ops fs1) /\
  inserts_returned "db.yavs" ops fs1 = 2%nat.
Proof.
  cbv zeta. split.
  - apply (record_count_is_inserts_returned "db.yavs" 1 ∅).
    vm_compute. reflexivity.
  - vm_compute. reflexivity.
Defined.

Lemma insert_Ok_content path a fs fs' n d (R : list byte) :
  fs !! path = Some (header_bytes n d ++ R) ->
  0 <= n < 2 ^ 64 -> 0 <= d < 2 ^ 32 ->
  insert_with path a fs = (Ok tt, fs') ->
  n + 1 < 2 ^ 64 /\
  fs' !! path = Some (header_bytes (n + 1) d ++ R ++ record_bytes a).
Proof.
  intros E Hn Hd Hi. unfold insert_with in Hi. rewrite insert_content_eq, E in Hi.
  destruct (insert_content _ _ _ _ _) as [r c'] eqn:Ec.
  injection Hi as -> <-.
  apply insert_content_Ok in Ec
    as (n' & d' & eb & mb & Hh & _ & _ & Hp & _ & Hmb & Hn' & ->).
  rewrite (read_header_app _ R _ _ (read_header_fresh n d Hn Hd)) in Hh.
  injection Hh as <- <-.
  split; [lia|]. rewrite lookup_insert_eq. f_equal.
  unfold record_bytes. rewrite Hp, Hmb.
  unfold header_bytes. rewrite <- !app_assoc.
  rewrite layout_take_8, layout_drop_16 by apply length_le_bytes.
  rewrite <- !app_assoc. reflexivity.
Qed.

(** X16: after [create] and calls of [insert] that all return, the file is
    the 36-byte header, with the number of calls as count, followed by the
    records of the calls, whole and in the order of the calls. *)
Theorem file_is_header_then_records path d fs0 fs1 calls fs2 :
  create path d fs0 = (Ok tt, fs1) ->
  inserts_all_ok path calls fs1 = Some fs2 ->
  fs2 !! path
  = Some (header_bytes (len calls) d ++ concat (map record_bytes calls)).
Proof.
  intros Hc Hr. apply create_Ok_inv in Hc as [Hd ->].
  assert (Hgen : forall cs fs n R,
    fs !! path = Some (header_bytes n d ++ R) ->
    0 <= n < 2 ^ 64 ->
    inserts_all_ok path cs fs = Some fs2 ->
    fs2 !! path
    = Some (header_bytes (n + len cs) d ++ R ++ concat (map record_bytes cs))).
  { clear Hr calls. induction cs as [|a calls IH]; intros fs n R E Hn Hr.
    - simpl in Hr. injection Hr as <-. unfold len. simpl.
      rewrite Z.add_0_r, app_nil_r. exact E.
    - simpl in Hr.
      destruct (insert_with path a fs) as [[[]|e] fs'] eqn:Ei; [|discriminate].
      destruct (insert_Ok_content _ _ _ _ _ _ _ E Hn Hd Ei) as [Hn1 E1].
      rewrite (IH _ _ _ E1 ltac:(lia) Hr).
      simpl map. simpl concat. rewrite <- !app_assoc.
      replace (n + 1 + len calls) with (n + len (a :: calls)); [reflexivity|].
      unfold len. simpl length. lia. }
  rewrite (Hgen calls _ 0 [] ltac:(rewrite app_nil_r; apply lookup_insert_eq)
             ltac:(lia) Hr).
  reflexivity.
Qed.

Lemma file_is_header_then_records_example :
  let a1 := InsertArgs [S754_finite false 1 0] (MetaBytes [x61]) None 11 in
  let a2 := InsertArgs [S754_zero false] (MetaStr (str_of "hi")) (Some (zeros 16)) 0 in
  let fs1 := snd (create "db.yavs" 1 ∅) in
  let fs2 := snd (insert_with "db.yavs" a2 (snd (insert_with "db.yavs" a1 fs1))) in
  fs2 !! "db.yavs"
  = Some (header_bytes (len [a1; a2]) 1 ++ concat (map record_bytes [a1; a2])).
Proof.
  cbv zeta.
  apply (file_is_header_then_records "db.yavs" 1 ∅ (snd (create "db.yavs" 1 ∅))).
  - vm_compute. reflexivity.
  - vm_compute. reflexivity.
Defined.

End RunsMore.
